(** * haystack/indexing/utils.py: document conversion and archive fetching

    A shallow embedding of the two utilities of [haystack.indexing.utils]:

    - [convert_files_to_documents], which walks a directory tree, reads the
      [.txt] and [.pdf] files it finds and turns them into [Document]s;
    - [fetch_archive_from_http], which downloads an archive into a scoped
      temporary file and extracts it into an output directory.

    Python values are modelled as follows.  A [str] is the list of its code
    points; the file system is a tree of named nodes, a directory keeping its
    entries in the order in which [os.scandir] lists them; a [Path] is the
    list of its components below the root of that tree.  Exceptions are
    values of [exn], carried by [result]; the Archive Fetcher threads a
    [world] through every step, also through the steps that raise. *)

From stdpp Require Import base option list gmap strings.
From Stdlib Require Import NArith ZArith Lia.

Local Open Scope Z_scope.
Local Open Scope nat_scope.

(** ** Python strings *)

(** A Python [str]: the sequence of its Unicode code points. *)
Definition str := list N.

(** The [str] whose characters are those of a literal (code points below 256). *)
Definition lit (s : string) : str :=
  map (fun a => Ascii.N_of_ascii a) (String.list_ascii_of_string s).

(** The line feed character, written [\n] in the source. *)
Definition LF : N := 10%N.

(** [bool(s)]: a [str] is true when it is not empty. *)
Definition truthy (s : str) : bool :=
  match s with [] => false | _ :: _ => true end.

(** [c.isspace()], the characters that [str.strip()] removes: the white space
    of the Unicode character database. *)
Definition isspace (c : N) : bool :=
  ((9 <=? c) && (c <=? 13) || (28 <=? c) && (c <=? 32)
   || (c =? 133) || (c =? 160) || (c =? 5760)
   || (8192 <=? c) && (c <=? 8202)
   || (c =? 8232) || (c =? 8233) || (c =? 8239) || (c =? 8287)
   || (c =? 12288))%N.

(** [s.lstrip()], [s.rstrip()] and [s.strip()] without argument. *)
Fixpoint lstrip (s : str) : str :=
  match s with
  | [] => []
  | c :: s' => if isspace c then lstrip s' else s
  end.

Definition rstrip (s : str) : str := rev (lstrip (rev s)).

Definition strip (s : str) : str := rstrip (lstrip s).

(** [s.startswith(prefix)]. *)
Fixpoint startswith (prefix s : str) : bool :=
  match prefix, s with
  | [], _ => true
  | _ :: _, [] => false
  | a :: prefix', b :: s' => (a =? b)%N && startswith prefix' s'
  end.

(** [s.split(sep)] for a non-empty separator: the text is scanned from the
    left, every occurrence of [sep] that does not overlap the previous one
    ends a piece.  [cur] holds the characters of the piece being read, last
    one first. *)
Fixpoint split_from (fuel : nat) (sep cur s : str) : list str :=
  match fuel with
  | O => [rev cur ++ s]
  | S fuel' =>
      match s with
      | [] => [rev cur]
      | c :: s' =>
          if startswith sep s
          then rev cur :: split_from fuel' sep [] (drop (length sep) s)
          else split_from fuel' sep (c :: cur) s'
      end
  end.

Definition split (sep s : str) : list str :=
  split_from (S (length s)) sep [] s.

(** [sep.join(pieces)]. *)
Fixpoint join (sep : str) (pieces : list str) : str :=
  match pieces with
  | [] => []
  | [p] => p
  | p :: ps => p ++ sep ++ join sep ps
  end.

(** [s[-n:]] for a positive [n]: the last [n] characters, the whole of [s]
    when it is shorter. *)
Definition last_chars (n : nat) (s : str) : str :=
  drop (length s - n) s.

(** [s.rfind(c)]: the highest index of [c] in [s], [-1] when there is none. *)
Fixpoint rfind (c : N) (s : str) : Z :=
  match s with
  | [] => (-1)%Z
  | d :: s' =>
      let r := rfind c s' in
      if (0 <=? r)%Z then (r + 1)%Z
      else if (d =? c)%N then 0%Z else (-1)%Z
  end.

(** A [pathlib.Path]: its components, from the root of the tree. *)
Definition path := list str.

(** ** Exceptions and results *)

(** The exceptions that the two functions can raise or let through. *)
Inductive exn : Type :=
| UnsupportedFormat (sfx : str)
    (* [Exception(f"Indexing of {path.suffix} files is not currently supported.")] *)
| FileNotFoundError (p : path)
| IsADirectoryError (p : path)
| NotADirectoryError (p : path)
| FileExistsError (p : path)
| PermissionError (p : path)
| UnicodeDecodeError
    (* the bytes of a file are not text in the default encoding *)
| AttributeError
    (* a method called on [None] *)
| External (code : N).
    (* raised inside an external collaborator: PDF extraction, the HTTP
       download, the archive libraries *)

(** A call returns a value or raises. *)
Inductive result (A : Type) : Type :=
| Ok (a : A)
| Raise (e : exn).
Arguments Ok {A} a.
Arguments Raise {A} e.

#[global] Instance result_ret : MRet result := fun A a => Ok a.

#[global] Instance result_bind : MBind result := fun A B k r =>
  match r with
  | Ok a => k a
  | Raise e => Raise e
  end.

(** A [for] loop whose body may raise: the body takes the loop state and an
    item to the next state. *)
Fixpoint for_each {S A} (body : S -> A -> result S) (items : list A) (s : S) : result S :=
  match items with
  | [] => Ok s
  | x :: items' => s' ← body s x; for_each body items' s'
  end.

(** ** The file system *)

(** A node of the directory tree.  A regular file holds the text that
    reading it in text mode returns, or, when it cannot be read (no
    permission, bytes that do not decode), the exception that reading it
    raises; a directory lists its entries in the order of [os.scandir]. *)
#[local] Unset Elimination Schemes.
Inductive node : Type :=
| File (content : str)
| Unreadable (e : exn)
| Dir (entries : list (str * node)).
#[local] Set Elimination Schemes.

(** The entry called [name] of a directory listing. *)
Fixpoint child (name : str) (es : list (str * node)) : option node :=
  match es with
  | [] => None
  | (n, c) :: es' => if decide (n = name) then Some c else child name es'
  end.

(** The node a path denotes, if it exists. *)
Fixpoint resolve (root : node) (p : path) : option node :=
  match p with
  | [] => Some root
  | name :: p' =>
      match root with
      | File _ | Unreadable _ => None
      | Dir es =>
          match child name es with
          | Some c => resolve c p'
          | None => None
          end
      end
  end.

(** [Path.exists()] and [Path.is_dir()]. *)
Definition exists_ (root : node) (p : path) : bool :=
  match resolve root p with Some _ => true | None => false end.

Definition is_dir (root : node) (p : path) : bool :=
  match resolve root p with Some (Dir _) => true | _ => false end.

(** [Path.name]: the final component, empty for the root. *)
Definition name (p : path) : str := List.last p [].

(** [Path.suffix]: the final component's last dot and what follows it,
    unless that dot starts or ends the name. *)
Definition suffix (p : path) : str :=
  let n := name p in
  let i := rfind 46%N n in
  if ((0 <? i) && (i <? Z.of_nat (length n) - 1))%Z
  then drop (Z.to_nat i) n
  else [].

(** [fnmatch] on one path component, for patterns made of literal
    characters, [?] and [*].  As in [pathlib], a leading dot of the name is
    not special. *)
Fixpoint fnmatch (pat nm : str) : bool :=
  match pat with
  | [] => negb (truthy nm)
  | c :: pat' =>
      if (c =? 42)%N
      then (fix any (s : str) : bool :=
              fnmatch pat' s
              || match s with [] => false | _ :: s' => any s' end) nm
      else match nm with
           | [] => false
           | d :: nm' => ((c =? 63) || (c =? d))%N && fnmatch pat' nm'
           end
  end.

(** The directories that a [**] pattern component visits below (and
    including) the directory [d] at path [p], each with its listing: [d]
    first, then what each of its sub-directories yields, in listing order. *)
Fixpoint iterate_directories (p : path) (d : node) : list (path * list (str * node)) :=
  match d with
  | File _ | Unreadable _ => []
  | Dir es =>
      (p, es) :: flat_map (fun e => iterate_directories (p ++ [e.1]) e.2) es
  end.

(** The entries of one directory whose name matches a pattern component;
    files and directories alike. *)
Definition select_wildcard (pat : str) (p : path) (es : list (str * node)) : list path :=
  map (fun e => p ++ [e.1]) (List.filter (fun e => fnmatch pat e.1) es).

(** [Path(dir).rglob(pat)]: nothing when [dir] is not a directory. *)
Definition rglob (root : node) (dir : path) (pat : str) : list path :=
  match resolve root dir with
  | Some (Dir es) =>
      flat_map (fun d => select_wildcard pat d.1 d.2)
               (iterate_directories dir (Dir es))
  | _ => []
  end.

(** [pattern] without its leading [prefix], when it starts with it. *)
Fixpoint removeprefix (prefix pattern : str) : option str :=
  match prefix, pattern with
  | [], _ => Some pattern
  | _ :: _, [] => None
  | a :: prefix', b :: pattern' =>
      if (a =? b)%N then removeprefix prefix' pattern' else None
  end.

(** [Path(dir).glob(pattern)] for the patterns of this module: a pattern
    [**/pat] searches every directory below [dir], a pattern of one
    component searches [dir] alone. *)
Definition glob (root : node) (dir : path) (pattern : str) : list path :=
  match removeprefix (lit "**/") pattern with
  | Some pat => rglob root dir pat
  | None =>
      match resolve root dir with
      | Some (Dir es) => select_wildcard pattern dir es
      | _ => []
      end
  end.

(** ** The Document Converter *)

(** Modelled from the spec: the class [Document] of [haystack.database.base],
    a document record whose one essential field is its textual content. *)
Record Document : Type := mkDocument { text : str }.

(** Modelled from the spec: the class [PDFToText] of
    [haystack.indexing.file_converters.pdftotext], a black box that, given a
    file path, returns the extracted text or fails. *)
Record PDFToText : Type := { extract_text : node -> path -> result str }.

(** [open(path).read()]. *)
Definition open_read (fs : node) (p : path) : result str :=
  match resolve fs p with
  | Some (File content) => Ok content
  | Some (Unreadable e) => Raise e
  | Some (Dir _) => Raise (IsADirectoryError p)
  | None => Raise (FileNotFoundError p)
  end.

Section Converter.

(** The call [PDFToText()]: a converter, or the exception of its
    constructor. *)
Variable PDFToText_new : result PDFToText.

(** The file system that the call reads. *)
Variable fs : node.

(** Lines 25-32: the paths of both patterns, and the converter that the
    last pattern leaves in [pdf_converter]. *)
Definition enumerate (dir_path : path) : result (list path * option PDFToText) :=
  for_each
    (fun '(file_paths, _) ext =>
       let paths := glob fs dir_path ext in
       let file_paths := file_paths ++ paths in
       if bool_decide (lit ".pdf" ∈ map suffix paths)
       then pdf_converter ← PDFToText_new;
            Ok (file_paths, Some pdf_converter)
       else Ok (file_paths, None))
    [lit "**/*.txt"; lit "**/*.pdf"]
    ([], None).

(** Lines 36-42: the raw text of one file. *)
Definition read_text (pdf_converter : option PDFToText) (p : path) : result str :=
  if decide (suffix p = lit ".txt") then open_read fs p
  else if decide (suffix p = lit ".pdf") then
    match pdf_converter with
    | Some c => extract_text c fs p
    | None => Raise AttributeError
    end
  else Raise (UnsupportedFormat (suffix p)).

(** Lines 44-45: the text after the cleaning function, when there is one. *)
Definition apply_clean (clean_func : option (str -> str)) (text : str) : str :=
  match clean_func with
  | Some f => f text
  | None => text
  end.

(** Lines 48-51: the loop over the paragraphs of a text. *)
Definition append_paragraphs (documents : list Document) (text : str) : list Document :=
  fold_left
    (fun documents para =>
       if negb (truthy (strip para)) then documents
       else documents ++ [mkDocument para])
    (split [LF; LF] text)
    documents.

(** Lines 36-53: the body of the loop over [file_paths]. *)
Definition convert_file (pdf_converter : option PDFToText)
    (clean_func : option (str -> str)) (split_paragraphs : bool)
    (documents : list Document) (p : path) : result (list Document) :=
  text ← read_text pdf_converter p;
  let text := apply_clean clean_func text in
  if split_paragraphs then Ok (append_paragraphs documents text)
  else Ok (documents ++ [mkDocument text]).

Definition convert_files_to_documents (dir_path : path)
    (clean_func : option (str -> str)) (split_paragraphs : bool)
    : result (list Document) :=
  '(file_paths, pdf_converter) ← enumerate dir_path;
  for_each (convert_file pdf_converter clean_func split_paragraphs) file_paths [].

End Converter.

(** ** The Archive Fetcher *)

(** The content of a file on disk. *)
Definition bytes := list N.

(** The [proxies] argument: a dict from protocol to proxy address. *)
Definition proxies := list (str * str).

(** The lines that [logger.info] writes. *)
Inductive log_line : Type :=
| FoundData (output_dir : path)
    (* "Found data stored in `{output_dir}`. Delete this first ..." *)
| Fetching (url : str) (output_dir : path).
    (* "Fetching from {url} to `{output_dir}`" *)

(** The calls to the external collaborators. *)
Inductive event : Type :=
| HttpGet (url : str) (p : option proxies)
| ZipExtractAll (output_dir : path)
| TarExtractAll (output_dir : path).

(** What the Archive Fetcher reads and changes: the directory tree, the
    named temporary files (kept in the system's temporary directory, apart
    from the tree), the log and the trace of external calls, both with the
    latest entry last. *)
Record world : Type := mkWorld {
  files : node;
  temp_files : gmap nat bytes;
  log : list log_line;
  calls : list event
}.

(** A step returns or raises, and leaves a world behind in both cases. *)
Definition M (A : Type) : Type := world -> result A * world.

#[global] Instance M_ret : MRet M := fun A a w => (Ok a, w).

#[global] Instance M_bind : MBind M := fun A B k m w =>
  match m w with
  | (Ok a, w') => k a w'
  | (Raise e, w') => (Raise e, w')
  end.

Definition raise {A} (e : exn) : M A := fun w => (Raise e, w).

(** A branch that does nothing. *)
Definition pass : M unit := mret tt.

Definition set_files (f : node) (w : world) : world :=
  mkWorld f (temp_files w) (log w) (calls w).

Definition set_temp_files (t : gmap nat bytes) (w : world) : world :=
  mkWorld (files w) t (log w) (calls w).

Definition record (e : event) : M unit := fun w =>
  (Ok tt, mkWorld (files w) (temp_files w) (log w) (calls w ++ [e])).

Definition logger_info (l : log_line) : M unit := fun w =>
  (Ok tt, mkWorld (files w) (temp_files w) (log w ++ [l]) (calls w)).

(** The directory [p] with nothing in it, as a chain of new directories. *)
Fixpoint make_dirs (p : path) : node :=
  match p with
  | [] => Dir []
  | name :: p' => Dir [(name, make_dirs p')]
  end.

(** A listing with its first entry called [name] replaced. *)
Fixpoint replace_child (name : str) (c : node) (es : list (str * node)) : list (str * node) :=
  match es with
  | [] => []
  | (n, c0) :: es' =>
      if decide (n = name) then (n, c) :: es' else (n, c0) :: replace_child name c es'
  end.

(** [Path.mkdir(parents=True)] on the tree: [p] is what remains of the path
    [full] below [root]. *)
Fixpoint mkdir_parents (full : path) (root : node) (p : path) : result node :=
  match p with
  | [] => Raise (FileExistsError full)
  | name :: p' =>
      match root with
      | File _ | Unreadable _ => Raise (NotADirectoryError full)
      | Dir es =>
          match child name es with
          | Some c =>
              c' ← mkdir_parents full c p';
              Ok (Dir (replace_child name c' es))
          | None => Ok (Dir (es ++ [(name, make_dirs p')]))
          end
      end
  end.

(** Writing to and reading from a temporary file by its name. *)
Definition write_temp (temp_file : nat) (data : bytes) : M unit := fun w =>
  (Ok tt, set_temp_files (<[temp_file := data]> (temp_files w)) w).

Definition read_temp (temp_file : nat) : M bytes := fun w =>
  match temp_files w !! temp_file with
  | Some data => (Ok data, w)
  | None => (Raise (FileNotFoundError []), w)
  end.

Definition path_exists (p : path) : M bool := fun w => (Ok (exists_ (files w) p), w).

Definition path_mkdir (p : path) : M unit := fun w =>
  match mkdir_parents p (files w) p with
  | Ok f => (Ok tt, set_files f w)
  | Raise e => (Raise e, w)
  end.

Definition path_rglob (p : path) (pat : str) : M (list path) := fun w =>
  (Ok (rglob (files w) p pat), w).

Section Fetcher.

(** [http_get] of [farm.data_handler.utils]: the bytes that it writes to
    the file it is given, and the exception it raises, if any. *)
Variable http_response : str -> option proxies -> bytes * option exn.

(** [zipfile.ZipFile(name).extractall(dir)] and
    [tarfile.open(name).extractall(dir)] on an archive with the given
    content: the tree they leave, and the exception they raise, if any. *)
Variable zip_extractall : bytes -> path -> node -> node * option exn.
Variable tar_extractall : bytes -> path -> node -> node * option exn.

Definition finish (e : option exn) : M unit :=
  match e with
  | None => pass
  | Some e => raise e
  end.

(** [http_get(url, temp_file, proxies=proxies)]. *)
Definition http_get (url : str) (temp_file : nat) (p : option proxies) : M unit :=
  record (HttpGet url p);;
  let '(data, e) := http_response url p in
  write_temp temp_file data;;
  finish e.

(** Opening an archive by the name of the file that holds it, and
    extracting all of it. *)
Definition extract (lib : bytes -> path -> node -> node * option exn)
    (ev : path -> event) (temp_file : nat) (output_dir : path) : M unit :=
  record (ev output_dir);;
  data ← read_temp temp_file;
  e ← (fun w => let '(f, e) := lib data output_dir (files w) in
                (Ok e, set_files f w)) : M (option exn);
  finish e.

(** [with tempfile.NamedTemporaryFile() as temp_file: body]: a new, empty
    file under a name not in use; it is deleted when the block is left,
    by its end or by an exception. *)
Definition with_NamedTemporaryFile {A} (body : nat -> M A) : M A := fun w =>
  let temp_file := fresh (dom (temp_files w)) in
  let '(r, w') := body temp_file (set_temp_files (<[temp_file := []]> (temp_files w)) w) in
  (r, set_temp_files (delete temp_file (temp_files w')) w').

Definition fetch_archive_from_http (url : str) (output_dir : path)
    (p : option proxies) : M bool :=
  let path := output_dir in
  found ← path_exists path;
  (if negb found then path_mkdir path else pass);;
  entries ← path_rglob path (lit "*");
  let is_not_empty := bool_decide (0 < length entries) in
  if is_not_empty then
    logger_info (FoundData output_dir);;
    mret false
  else
    logger_info (Fetching url output_dir);;
    with_NamedTemporaryFile (fun temp_file =>
      http_get url temp_file p;;
      (* temp_file.flush(), temp_file.seek(0): the bytes are in the file *)
      if decide (last_chars 4 url = lit ".zip") then
        extract zip_extractall ZipExtractAll temp_file output_dir
      else if decide (last_chars 7 url = lit ".tar.gz") then
        extract tar_extractall TarExtractAll temp_file output_dir
      else pass);;
    mret true.

End Fetcher.

(** ** Notions used in the statements *)



(** A pattern without wild cards: no [*], no [?]. *)
Definition literal (pat : str) : Prop :=
  Forall (fun c => c <> 42%N /\ c <> 63%N) pat.




(** The paragraphs that the converter keeps: those that are not blank. *)
Definition kept_paragraphs (text : str) : list str :=
  List.filter (fun para => truthy (strip para)) (split [LF; LF] text).

(** The records that one file contributes, given its cleaned text. *)
Definition records_of_text (split_paragraphs : bool) (text : str) : list Document :=
  if split_paragraphs then map mkDocument (kept_paragraphs text)
  else [mkDocument text].

(** The text of the second testable property: [a], [b], a paragraph of two
    spaces and [c], separated by blank lines. *)
Definition abc_text : str :=
  lit "a" ++ [LF; LF] ++ lit "b" ++ [LF; LF] ++ lit "  " ++ [LF; LF] ++ lit "c".

Section Upper.

(** The upper-case mapping of one character ([str.upper] maps some
    characters to several). *)
Variable to_upper : N -> list N.

(** [s.upper()]. *)
Definition upper (s : str) : str := flat_map to_upper s.

(** A fully upper-cased text: upper-casing leaves each character as it is. *)
Definition is_uppercased (s : str) : Prop :=
  Forall (fun c => to_upper c = [c]) s.

End Upper.

(** The upper-case mapping of ASCII: the letters [a] to [z] lose 32. *)
Definition ascii_to_upper (c : N) : list N :=
  if ((97 <=? c) && (c <=? 122))%N then [(c - 32)%N] else [c].

(** The world after a call that leaves the tree [f], writes the line [l] and
    calls the collaborators [es]: nothing else differs from [w]. *)
Definition after (w : world) (f : node) (l : log_line) (es : list event) : world :=
  mkWorld f (temp_files w) (log w ++ [l]) (calls w ++ es).

(** The outcome of a call whose last step may have raised. *)
Definition outcome (e : option exn) : result bool :=
  match e with
  | None => Ok true
  | Some e => Raise e
  end.

(** A server that answers every request with the same two bytes. *)
Definition sample_response (url : str) (p : option proxies) : bytes * option exn :=
  (lit "PK", None).

(** An extraction that leaves one file [a.txt] in a directory [data]. *)
Definition sample_extractall (data : bytes) (output_dir : path) (fs : node)
    : node * option exn :=
  (Dir [(lit "data", Dir [(lit "a.txt", File data)])], None).

(** An extraction that fails on every archive. *)
Definition failing_extractall (data : bytes) (output_dir : path) (fs : node)
    : node * option exn :=
  (fs, Some (External 7)).

(** A world with an empty directory [data] and nothing else. *)
Definition empty_data_world : world :=
  mkWorld (Dir [(lit "data", Dir [])]) ∅ [] [].

(** [PDFToText()] on a machine without the [pdftotext] tool. *)
Definition no_pdftotext : result PDFToText := Raise (External 0).

(** A directory with one empty text file. *)
Definition empty_file_tree : node := Dir [(lit "a.txt", File [])].

(** A directory with a file called just [.txt]. *)
Definition dot_txt_tree : node := Dir [(lit ".txt", File (lit "hidden"))].

(** A converter that takes the content of a file for its text. *)
Definition plain_pdftotext : result PDFToText :=
  Ok {| extract_text := open_read |}.

(** A directory [docs] that lists a PDF file before a text file. *)
Definition mixed_tree : node :=
  Dir [(lit "docs",
        Dir [(lit "b.pdf", File (lit "from pdf"));
             (lit "a.txt", File (lit "from txt"))])].

(** A directory [docs] with two text files, one in a sub-directory. *)
Definition docs_tree : node :=
  Dir [(lit "docs",
        Dir [(lit "one.txt", File (lit "first"));
             (lit "more", Dir [(lit "two.txt", File (lit "second"))])])].

(** ** Further notions *)

(** Reading the files of a list in order, up to the first that fails. *)
Fixpoint read_all (fs : node) (pdf_converter : option PDFToText) (paths : list path)
    : result (list str) :=
  match paths with
  | [] => Ok []
  | p :: paths' =>
      raw ← read_text fs pdf_converter p;
      raws ← read_all fs pdf_converter paths';
      Ok (raw :: raws)
  end.

(** A text of white space only (the empty text is one). *)
Definition blank (s : str) : Prop := Forall (fun c => isspace c = true) s.

(** A text with a blank line: two line feeds in a row. *)
Definition has_blank_line (s : str) : Prop :=
  exists a b, s = a ++ [LF; LF] ++ b.

(** A tree in which no name, of a file or of a directory, matches one of
    the two patterns of the converter. *)
Fixpoint no_documents (d : node) : bool :=
  match d with
  | File _ | Unreadable _ => true
  | Dir es =>
      forallb (fun e =>
                 negb (fnmatch (lit "*.txt") e.1)
                 && negb (fnmatch (lit "*.pdf") e.1)
                 && no_documents e.2) es
  end.



(** A server whose connection breaks after two bytes. *)
Definition failing_response (url : str) (p : option proxies) : bytes * option exn :=
  (lit "PK", Some (External 3)).

(** An extraction that writes one file [a.txt] into [data] and then fails. *)
Definition partial_extractall (data : bytes) (output_dir : path) (fs : node)
    : node * option exn :=
  (Dir [(lit "data", Dir [(lit "a.txt", File data)])], Some (External 7)).

(** A directory [docs] with a text file and a sub-directory whose name ends
    in [.txt]. *)
Definition txt_directory_tree : node :=
  Dir [(lit "docs",
        Dir [(lit "a.txt", File (lit "text"));
             (lit "old.txt", Dir [])])].

(** A directory [docs] with files of other formats only. *)
Definition other_formats_tree : node :=
  Dir [(lit "docs",
        Dir [(lit "report.docx", File (lit "docx"));
             (lit "img", Dir [(lit "scan.png", File (lit "png"))])])].

(** A world whose tree has a regular file [data] and nothing else. *)
Definition file_data_world : world :=
  mkWorld (Dir [(lit "data", File (lit "not a directory"))]) ∅ [] [].

(** A world whose tree has a file [keep.txt] and no directory [data]. *)
Definition no_data_world : world :=
  mkWorld (Dir [(lit "keep.txt", File (lit "kept"))]) ∅ [] [].

(** ** Proof automation *)

(** Runs the steps of the state monad that are ready to run. *)
Create HintDb steps.
#[local] Hint Unfold path_exists path_mkdir path_rglob logger_info record
  write_temp read_temp finish pass raise set_files set_temp_files : steps.

Ltac run_steps :=
  autounfold with steps;
  repeat (unfold mbind, M_bind, mret, M_ret;
          cbn -[lit rglob last_chars insert delete lookup fresh dom mkdir_parents
                exists_ decide bool_decide]).

(** * Properties *)

(** ** Trees *)

Lemma node_induction (P : node -> Prop) :
  (forall content, P (File content)) ->
  (forall e, P (Unreadable e)) ->
  (forall es, Forall (fun e => P e.2) es -> P (Dir es)) ->
  forall d, P d.
Proof.
  intros HF HU HD.
  fix IH 1. intros [content | e | es].
  - apply HF.
  - apply HU.
  - apply HD. induction es as [| [n c] es IHes]; constructor.
    + apply IH.
    + exact IHes.
Qed.

(** ** Strings *)

Lemma truthy_nonempty (s : str) : truthy s = true <-> s <> [].
Proof. destruct s; simpl; split; intros; congruence. Qed.

Lemma lstrip_suffix (s : str) : exists w, s = w ++ lstrip s.
Proof.
  induction s as [| c s [w IH]]; simpl.
  - exists []. reflexivity.
  - destruct (isspace c).
    + exists (c :: w). simpl. congruence.
    + exists []. reflexivity.
Qed.

(** A text whose stripped form is not empty is not empty itself. *)
Lemma strip_truthy (s : str) : truthy (strip s) = true -> s <> [].
Proof. intros H ->. discriminate H. Qed.

Lemma startswith_spec (prefix s : str) :
  startswith prefix s = true <-> exists t, s = prefix ++ t.
Proof.
  revert s. induction prefix as [| a prefix IH]; intros s; simpl.
  - split; [intros _; exists s; reflexivity | reflexivity].
  - destruct s as [| b s].
    + split; [discriminate | intros [t Ht]; discriminate Ht].
    + rewrite andb_true_iff, N.eqb_eq, IH. split.
      * intros [-> [t ->]]. exists t. reflexivity.
      * intros [t Ht]. injection Ht as -> ->. split; [reflexivity | exists t; reflexivity].
Qed.

(** Every piece of a split is made of characters of the text. *)
Lemma split_from_chars (P : N -> Prop) (sep : str) (fuel : nat) :
  forall cur s, Forall P cur -> Forall P s ->
  Forall (Forall P) (split_from fuel sep cur s).
Proof.
  induction fuel as [| fuel IH]; intros cur s Hcur Hs; simpl.
  - constructor; [| constructor].
    apply Forall_app. split; [apply Forall_rev; exact Hcur | exact Hs].
  - destruct s as [| c s'].
    + constructor; [apply Forall_rev; exact Hcur | constructor].
    + destruct (startswith sep (c :: s')).
      * constructor; [apply Forall_rev; exact Hcur |].
        apply IH; [constructor |]. apply Forall_drop. exact Hs.
      * apply IH; [| eapply Forall_inv_tail; exact Hs].
        constructor; [eapply Forall_inv; exact Hs | exact Hcur].
Qed.

Lemma split_chars (P : N -> Prop) (sep s : str) :
  Forall P s -> Forall (Forall P) (split sep s).
Proof. intros H. apply split_from_chars; [constructor | exact H]. Qed.

Lemma split_from_nonempty (sep : str) (fuel : nat) (cur s : str) :
  split_from fuel sep cur s <> [].
Proof.
  revert cur s. induction fuel as [| fuel IH]; intros cur s; simpl; [discriminate |].
  destruct s as [| c s']; [discriminate |].
  destruct (startswith sep (c :: s')); [discriminate | apply IH].
Qed.

(** Joining the pieces of a split with the separator gives the text back:
    the fuel of [split] is enough to read all of it. *)
Lemma join_split_from (sep : str) (fuel : nat) :
  forall cur s, join sep (split_from fuel sep cur s) = rev cur ++ s.
Proof.
  induction fuel as [| fuel IH]; intros cur s; simpl.
  - reflexivity.
  - destruct s as [| c s'].
    + simpl. rewrite app_nil_r. reflexivity.
    + destruct (startswith sep (c :: s')) eqn:E.
      * apply startswith_spec in E as [t Ht].
        remember (split_from fuel sep [] (drop (length sep) (c :: s'))) as ps eqn:Eps.
        assert (Hj : join sep ps = t).
        { subst ps. rewrite IH. simpl. rewrite Ht, drop_app_length. reflexivity. }
        destruct ps as [| q ps].
        -- symmetry in Eps. apply split_from_nonempty in Eps. destruct Eps.
        -- rewrite Ht. change (join sep (rev cur :: q :: ps))
             with (rev cur ++ sep ++ join sep (q :: ps)).
           rewrite Hj. reflexivity.
      * rewrite IH. simpl. rewrite <- app_assoc. reflexivity.
Qed.

Lemma join_split (sep s : str) : join sep (split sep s) = s.
Proof. unfold split. rewrite join_split_from. reflexivity. Qed.

(** Fuel beyond the length of the text changes nothing: the scan has
    reached the end of the text by then. *)
Lemma split_from_fuel (sep : str) (fuel : nat) :
  forall cur s, sep <> [] -> length s < fuel ->
  split_from (S fuel) sep cur s = split_from fuel sep cur s.
Proof.
  induction fuel as [| fuel IH]; intros cur s Hsep Hlen; [lia |].
  destruct s as [| c s']; [reflexivity |].
  change (split_from (S (S fuel)) sep cur (c :: s'))
    with (if startswith sep (c :: s')
          then rev cur :: split_from (S fuel) sep [] (drop (length sep) (c :: s'))
          else split_from (S fuel) sep (c :: cur) s').
  change (split_from (S fuel) sep cur (c :: s'))
    with (if startswith sep (c :: s')
          then rev cur :: split_from fuel sep [] (drop (length sep) (c :: s'))
          else split_from fuel sep (c :: cur) s').
  simpl in Hlen.
  destruct (startswith sep (c :: s')).
  - f_equal. apply IH; [exact Hsep |].
    rewrite length_drop. destruct sep; [congruence | simpl; lia].
  - apply IH; [exact Hsep | lia].
Qed.

(** The scan on some texts with runs of line feeds. *)
Lemma split_examples :
  split [LF; LF] [] = [[]]
  /\ split [LF; LF] [LF; LF] = [[]; []]
  /\ split [LF; LF] (lit "a" ++ [LF; LF; LF] ++ lit "b") = [lit "a"; LF :: lit "b"]
  /\ split [LF; LF] (lit "a" ++ [LF; LF]) = [lit "a"; []]
  /\ split [LF; LF] (lit "a" ++ [LF] ++ lit "b") = [lit "a" ++ [LF] ++ lit "b"].
Proof. repeat split; reflexivity. Qed.

(** ** Patterns and suffixes *)

Lemma fnmatch_literal (pat nm : str) :
  literal pat -> fnmatch pat nm = true <-> nm = pat.
Proof.
  intros Hlit. revert nm.
  induction Hlit as [| c pat [H42 H63] _ IH]; intros nm.
  - destruct nm; simpl; split; intros; congruence.
  - simpl. apply N.eqb_neq in H42, H63. rewrite H42, H63. simpl.
    destruct nm as [| d nm]; [split; discriminate |].
    rewrite andb_true_iff, N.eqb_eq, IH. split.
    + intros [-> ->]. reflexivity.
    + intros [= -> ->]. split; reflexivity.
Qed.

(** A pattern [*ext] matches the names that end with [ext]. *)
Lemma fnmatch_star (ext nm : str) :
  literal ext -> fnmatch (42%N :: ext) nm = true <-> exists s, nm = s ++ ext.
Proof.
  intros Hlit. simpl.
  induction nm as [| d nm IH].
  - rewrite orb_false_r, fnmatch_literal by exact Hlit. split.
    + intros <-. exists []. reflexivity.
    + intros [s Hs]. symmetry in Hs. apply app_eq_nil in Hs. symmetry. apply Hs.
  - rewrite orb_true_iff, fnmatch_literal by exact Hlit. rewrite IH. split.
    + intros [<- | [s ->]]; [exists [] | exists (d :: s)]; reflexivity.
    + intros [[| d' s] Hs]; simpl in Hs.
      * left. exact Hs.
      * right. injection Hs as _ ->. exists s. reflexivity.
Qed.

Lemma rfind_app (c : N) (s t : str) :
  (0 <= rfind c t)%Z -> rfind c (s ++ t) = (Z.of_nat (length s) + rfind c t)%Z.
Proof.
  intros Ht. induction s as [| d s IH]; simpl rfind; simpl length.
  - lia.
  - rewrite IH. destruct (Z.leb_spec 0 (Z.of_nat (length s) + rfind c t)); lia.
Qed.

Lemma name_snoc (p : path) (nm : str) : name (p ++ [nm]) = nm.
Proof. unfold name. apply last_last. Qed.

(** The suffix of a name [s ++ ext], where [ext] is a dot followed by
    characters that are not dots: [ext] itself, unless [s] is empty. *)
Lemma suffix_ends (ext : str) (p : path) (s : str) :
  rfind 46%N ext = 0%Z -> 2 <= length ext -> s <> [] ->
  suffix (p ++ [s ++ ext]) = ext.
Proof.
  intros Hext Hlen Hs. unfold suffix. rewrite name_snoc.
  rewrite rfind_app by lia. rewrite Hext, Z.add_0_r, length_app.
  assert (0 < length s) by (destruct s; [congruence | simpl; lia]).
  destruct (Z.ltb_spec 0 (Z.of_nat (length s))); [| lia].
  destruct (Z.ltb_spec (Z.of_nat (length s)) (Z.of_nat (length s + length ext) - 1));
    [| lia].
  simpl. rewrite Nat2Z.id. apply drop_app_length.
Qed.

Lemma suffix_bare (ext : str) (p : path) :
  rfind 46%N ext = 0%Z -> suffix (p ++ [ext]) = [].
Proof.
  intros Hext. unfold suffix. rewrite name_snoc, Hext. reflexivity.
Qed.

(** A path with a non-empty suffix has a name that ends with it. *)
Lemma suffix_name (p : path) :
  suffix p <> [] -> exists s, name p = s ++ suffix p.
Proof.
  unfold suffix.
  destruct ((0 <? rfind 46%N (name p))%Z
            && (rfind 46%N (name p) <? Z.of_nat (length (name p)) - 1)%Z);
    [| congruence].
  intros _. exists (take (Z.to_nat (rfind 46%N (name p))) (name p)).
  symmetry. apply take_drop.
Qed.

Lemma literal_txt : literal (lit ".txt").
Proof. repeat constructor; discriminate. Qed.

Lemma literal_pdf : literal (lit ".pdf").
Proof. repeat constructor; discriminate. Qed.

Lemma fnmatch_txt (nm : str) :
  fnmatch (lit "*.txt") nm = true <-> exists s, nm = s ++ lit ".txt".
Proof. apply (fnmatch_star (lit ".txt")), literal_txt. Qed.

Lemma fnmatch_pdf (nm : str) :
  fnmatch (lit "*.pdf") nm = true <-> exists s, nm = s ++ lit ".pdf".
Proof. apply (fnmatch_star (lit ".pdf")), literal_pdf. Qed.

(** The suffix of a name that [*.txt] matches, and of one that [*.pdf]
    matches. *)
Lemma suffix_txt (p : path) (s : str) :
  suffix (p ++ [s ++ lit ".txt"]) = if decide (s = []) then [] else lit ".txt".
Proof.
  destruct (decide (s = [])) as [-> | Hs].
  - apply suffix_bare. reflexivity.
  - apply suffix_ends; [reflexivity | simpl; lia | exact Hs].
Qed.

Lemma suffix_pdf (p : path) (s : str) :
  suffix (p ++ [s ++ lit ".pdf"]) = if decide (s = []) then [] else lit ".pdf".
Proof.
  destruct (decide (s = [])) as [-> | Hs].
  - apply suffix_bare. reflexivity.
  - apply suffix_ends; [reflexivity | simpl; lia | exact Hs].
Qed.

(** A name with suffix [.txt] is matched by [*.txt] and not by [*.pdf]. *)
Lemma suffix_txt_fnmatch (nm : str) :
  suffix [nm] = lit ".txt" ->
  fnmatch (lit "*.txt") nm = true /\ fnmatch (lit "*.pdf") nm = false.
Proof.
  intros Hsfx.
  destruct (suffix_name [nm]) as [s Hs]; [rewrite Hsfx; discriminate |].
  rewrite Hsfx in Hs. change (name [nm]) with nm in Hs. split.
  - apply fnmatch_txt. exists s. exact Hs.
  - apply not_true_is_false. intros [s' Hs']%fnmatch_pdf.
    rewrite Hs in Hs'. apply app_inj_2 in Hs' as [_ Hs']; [discriminate Hs' | reflexivity].
Qed.

(** ** Enumeration *)

Lemma glob_txt (fs : node) (dir : path) :
  glob fs dir (lit "**/*.txt") = rglob fs dir (lit "*.txt").
Proof. reflexivity. Qed.

Lemma glob_pdf (fs : node) (dir : path) :
  glob fs dir (lit "**/*.pdf") = rglob fs dir (lit "*.pdf").
Proof. reflexivity. Qed.

(** Every path of a recursive glob ends with a name that the pattern
    matches. *)
Lemma rglob_matches (fs : node) (dir : path) (pat : str) :
  Forall (fun p => exists q nm, p = q ++ [nm] /\ fnmatch pat nm = true)
         (rglob fs dir pat).
Proof.
  unfold rglob. destruct (resolve fs dir) as [[content | e | es] |]; try constructor.
  apply List.Forall_forall. intros p Hp.
  apply in_flat_map in Hp as [[q es'] [_ Hp]].
  unfold select_wildcard in Hp. simpl in Hp.
  apply in_map_iff in Hp as [[nm c] [<- He]].
  apply filter_In in He as [_ He]. exists q, nm. split; [reflexivity | exact He].
Qed.

Lemma rglob_missing (fs : node) (dir : path) (pat : str) :
  is_dir fs dir = false -> rglob fs dir pat = [].
Proof.
  unfold is_dir, rglob.
  destruct (resolve fs dir) as [[content | e | es] |];
    [reflexivity | reflexivity | discriminate | reflexivity].
Qed.

(** No path of the [.txt] glob has the suffix [.pdf]. *)
Lemma rglob_txt_suffix (fs : node) (dir : path) :
  lit ".pdf" ∉ map suffix (rglob fs dir (lit "*.txt")).
Proof.
  rewrite list_elem_of_In, in_map_iff. intros [p [Hsfx Hp]].
  pose proof (rglob_matches fs dir (lit "*.txt")) as H.
  rewrite List.Forall_forall in H. destruct (H p Hp) as [q [nm [-> Hm]]].
  apply fnmatch_txt in Hm as [s ->]. rewrite suffix_txt in Hsfx.
  case_decide; cbv in Hsfx; discriminate Hsfx.
Qed.

(** The first loop, unfolded: the paths of the [.txt] glob, then those of
    the [.pdf] glob; a converter is made when the latter has a [.pdf]
    file. *)
Lemma enumerate_eq (new : result PDFToText) (fs : node) (dir : path) :
  enumerate new fs dir =
    let file_paths := rglob fs dir (lit "*.txt") ++ rglob fs dir (lit "*.pdf") in
    if bool_decide (lit ".pdf" ∈ map suffix (rglob fs dir (lit "*.pdf")))
    then pdf_converter ← new; Ok (file_paths, Some pdf_converter)
    else Ok (file_paths, None).
Proof.
  unfold enumerate. cbn [for_each mbind result_bind]. rewrite glob_txt.
  rewrite (bool_decide_eq_false_2 _ (rglob_txt_suffix fs dir)).
  cbn [for_each mbind result_bind app]. rewrite glob_pdf.
  destruct (bool_decide _); [destruct new |]; reflexivity.
Qed.

Lemma enumerate_paths (new : result PDFToText) (fs : node) (dir : path)
    (file_paths : list path) (conv : option PDFToText) :
  enumerate new fs dir = Ok (file_paths, conv) ->
  file_paths = rglob fs dir (lit "*.txt") ++ rglob fs dir (lit "*.pdf").
Proof.
  rewrite enumerate_eq. simpl.
  destruct (bool_decide _); [destruct new; simpl |]; congruence.
Qed.

(** ** The loop over the files *)

Lemma append_paragraphs_eq (documents : list Document) (text : str) :
  append_paragraphs documents text
  = documents ++ map mkDocument (kept_paragraphs text).
Proof.
  unfold append_paragraphs, kept_paragraphs.
  generalize (split [LF; LF] text) as paras. intros paras. revert documents.
  induction paras as [| para paras IH]; intros documents; simpl.
  - rewrite app_nil_r. reflexivity.
  - rewrite IH. destruct (truthy (strip para)); simpl.
    + rewrite <- app_assoc. reflexivity.
    + reflexivity.
Qed.

Lemma convert_file_eq (fs : node) (conv : option PDFToText)
    (clean_func : option (str -> str)) (split_paragraphs : bool)
    (documents : list Document) (p : path) :
  convert_file fs conv clean_func split_paragraphs documents p
  = (raw ← read_text fs conv p;
     Ok (documents ++ records_of_text split_paragraphs (apply_clean clean_func raw))).
Proof.
  unfold convert_file, records_of_text.
  destruct (read_text fs conv p) as [raw | e]; simpl; [| reflexivity].
  destruct split_paragraphs; [rewrite append_paragraphs_eq |]; reflexivity.
Qed.

(** The loop returns exactly when every file can be read, and then with the
    records of the files, in order, after the documents it started from. *)
Lemma for_each_convert_file (fs : node) (conv : option PDFToText)
    (clean_func : option (str -> str)) (split_paragraphs : bool)
    (paths : list path) :
  forall documents out,
  for_each (convert_file fs conv clean_func split_paragraphs) paths documents = Ok out
  <-> exists raws,
        Forall2 (fun p raw => read_text fs conv p = Ok raw) paths raws
        /\ out = documents
                 ++ flat_map (fun raw => records_of_text split_paragraphs
                                           (apply_clean clean_func raw)) raws.
Proof.
  induction paths as [| p paths IH]; intros documents out; simpl.
  - split.
    + intros [= <-]. exists []. split; [constructor | rewrite app_nil_r; reflexivity].
    + intros [raws [H ->]]. inversion H. simpl. rewrite app_nil_r. reflexivity.
  - rewrite convert_file_eq.
    destruct (read_text fs conv p) as [raw | e] eqn:Er; simpl.
    + rewrite IH. split.
      * intros [raws [H ->]]. exists (raw :: raws). split.
        -- constructor; assumption.
        -- simpl. rewrite <- app_assoc. reflexivity.
      * intros [raws [H ->]]. inversion H as [| p' raw' ps' raws' Hr Hrest]; subst.
        assert (raw' = raw) as -> by congruence.
        exists raws'. split; [exact Hrest |].
        simpl. rewrite <- app_assoc. reflexivity.
    + split; [discriminate |].
      intros [raws [H _]]. inversion H; subst. congruence.
Qed.

(** What a returned sequence of documents is made of. *)
Lemma convert_ok_inv (new : result PDFToText) (fs : node) (dir_path : path)
    (clean_func : option (str -> str)) (split_paragraphs : bool)
    (documents : list Document) :
  convert_files_to_documents new fs dir_path clean_func split_paragraphs = Ok documents ->
  exists conv raws,
    Forall2 (fun p raw => read_text fs conv p = Ok raw)
            (rglob fs dir_path (lit "*.txt") ++ rglob fs dir_path (lit "*.pdf")) raws
    /\ documents = flat_map (fun raw => records_of_text split_paragraphs
                                          (apply_clean clean_func raw)) raws.
Proof.
  unfold convert_files_to_documents.
  destruct (enumerate new fs dir_path) as [[file_paths conv] | e] eqn:En; [| discriminate].
  apply enumerate_paths in En as ->. simpl.
  rewrite for_each_convert_file. intros [raws [H ->]]. exists conv, raws. split; [exact H | reflexivity].
Qed.

Lemma kept_paragraphs_spec (text para : str) :
  In para (kept_paragraphs text) ->
  In para (split [LF; LF] text) /\ truthy (strip para) = true.
Proof. unfold kept_paragraphs. intros H. apply filter_In in H. exact H. Qed.

(** Every record carries a kept paragraph of a cleaned text, or a whole
    cleaned text. *)
Lemma records_of_text_spec (split_paragraphs : bool) (cleaned : str) (d : Document) :
  In d (records_of_text split_paragraphs cleaned) ->
  if split_paragraphs
  then In (text d) (split [LF; LF] cleaned) /\ truthy (strip (text d)) = true
  else text d = cleaned.
Proof.
  unfold records_of_text. destruct split_paragraphs.
  - intros [para [<- Hp]]%in_map_iff. simpl. apply kept_paragraphs_spec, Hp.
  - intros [<- | []]. reflexivity.
Qed.

Lemma resolve_app (fs : node) (p q : path) :
  resolve fs (p ++ q) = match resolve fs p with
                        | Some d => resolve d q
                        | None => None
                        end.
Proof.
  revert fs. induction p as [| nm p IH]; intros fs; simpl; [reflexivity |].
  destruct fs as [content | e | es]; [reflexivity | reflexivity |].
  destruct (child nm es); [apply IH | reflexivity].
Qed.

Lemma Forall2_In_r {A B} (R : A -> B -> Prop) (l : list A) (k : list B) (y : B) :
  Forall2 R l k -> In y k -> exists x, In x l /\ R x y.
Proof.
  induction 1 as [| x y' l k HR _ IH]; intros Hy; [destruct Hy |].
  destruct Hy as [-> | Hy].
  - exists x. split; [left; reflexivity | exact HR].
  - destruct (IH Hy) as [x' [Hx' HR']]. exists x'. split; [right; exact Hx' | exact HR'].
Qed.

(** A file that is read has the suffix [.txt] or [.pdf], and a [.txt] file
    is read with [open]. *)
Lemma read_text_ok (fs : node) (conv : option PDFToText) (p : path) (raw : str) :
  read_text fs conv p = Ok raw ->
  (suffix p = lit ".txt" /\ open_read fs p = Ok raw) \/ suffix p = lit ".pdf".
Proof.
  unfold read_text.
  destruct (decide (suffix p = lit ".txt")) as [Ht | _]; [left; split; assumption |].
  destruct (decide (suffix p = lit ".pdf")) as [Hp | _]; [right; assumption |].
  discriminate.
Qed.

Lemma read_text_unsupported (fs : node) (conv : option PDFToText) (p : path) :
  suffix p <> lit ".txt" -> suffix p <> lit ".pdf" ->
  read_text fs conv p = Raise (UnsupportedFormat (suffix p)).
Proof.
  intros Ht Hp. unfold read_text.
  destruct (decide (suffix p = lit ".txt")); [contradiction |].
  destruct (decide (suffix p = lit ".pdf")); [contradiction | reflexivity].
Qed.

(** ** The records of the Document Converter *)

(** Every returned record is a paragraph of the cleaned text of a file, or
    that whole text. *)
Lemma records_from_cleaned_text (new : result PDFToText) (fs : node) (dir_path : path)
    (clean_func : option (str -> str)) (split_paragraphs : bool)
    (documents : list Document) :
  convert_files_to_documents new fs dir_path clean_func split_paragraphs = Ok documents ->
  Forall (fun d =>
            exists raw,
              if split_paragraphs
              then In (text d) (split [LF; LF] (apply_clean clean_func raw))
              else text d = apply_clean clean_func raw)
         documents.
Proof.
  intros [conv [raws [_ ->]]]%convert_ok_inv.
  apply List.Forall_forall. intros d Hd.
  apply in_flat_map in Hd as [raw [_ Hd]]. exists raw.
  apply records_of_text_spec in Hd. destruct split_paragraphs; [apply Hd | exact Hd].
Qed.

(** What a returned sequence of documents is made of, with the paths and
    the converter of the enumeration. *)
Lemma convert_ok_enumerate (new : result PDFToText) (fs : node) (dir_path : path)
    (clean_func : option (str -> str)) (split_paragraphs : bool)
    (documents : list Document) :
  convert_files_to_documents new fs dir_path clean_func split_paragraphs = Ok documents ->
  exists file_paths conv raws,
    enumerate new fs dir_path = Ok (file_paths, conv)
    /\ Forall2 (fun p raw => read_text fs conv p = Ok raw) file_paths raws
    /\ documents = flat_map (fun raw => records_of_text split_paragraphs
                                          (apply_clean clean_func raw)) raws.
Proof.
  unfold convert_files_to_documents.
  destruct (enumerate new fs dir_path) as [[file_paths conv] | e] eqn:En; [| discriminate].
  simpl. rewrite for_each_convert_file. intros [raws [H ->]].
  exists file_paths, conv, raws. split; [reflexivity |]. split; [exact H | reflexivity].
Qed.

(** C1, as the code has it.  A returned sequence of documents is made, file
    by file, of the texts that the enumerated paths give when read with the
    converter of the enumeration, each text cleaned and then cut: with
    paragraph splitting, a file gives its paragraphs that are not blank, so
    that every record is a paragraph of the cleaned text of its file that is
    neither empty nor white space only; without it, a file gives one record,
    the whole cleaned text, empty or not. *)
Theorem returned_records (new : result PDFToText) (fs : node) (dir_path : path)
    (clean_func : option (str -> str)) (split_paragraphs : bool)
    (documents : list Document) :
  convert_files_to_documents new fs dir_path clean_func split_paragraphs = Ok documents ->
  exists file_paths conv raws,
    enumerate new fs dir_path = Ok (file_paths, conv)
    /\ file_paths = glob fs dir_path (lit "**/*.txt") ++ glob fs dir_path (lit "**/*.pdf")
    /\ Forall2 (fun p raw => read_text fs conv p = Ok raw) file_paths raws
    /\ documents
       = flat_map (fun raw =>
                     let cleaned := apply_clean clean_func raw in
                     if split_paragraphs
                     then map mkDocument
                              (List.filter (fun para => truthy (strip para))
                                           (split [LF; LF] cleaned))
                     else [mkDocument cleaned])
                  raws
    /\ Forall (fun d =>
                 exists p raw,
                   In p file_paths
                   /\ read_text fs conv p = Ok raw
                   /\ if split_paragraphs
                      then In (text d) (split [LF; LF] (apply_clean clean_func raw))
                           /\ strip (text d) <> [] /\ text d <> []
                      else text d = apply_clean clean_func raw)
              documents.
Proof.
  intros [file_paths [conv [raws [Hen [Hread ->]]]]]%convert_ok_enumerate.
  exists file_paths, conv, raws.
  split; [exact Hen |].
  split; [rewrite glob_txt, glob_pdf; apply (enumerate_paths _ _ _ _ _ Hen) |].
  split; [exact Hread |].
  split; [destruct split_paragraphs; reflexivity |].
  apply List.Forall_forall. intros d Hd.
  apply in_flat_map in Hd as [raw [Hraw Hd]].
  destruct (Forall2_In_r _ _ _ _ Hread Hraw) as [p [Hp Hr]].
  exists p, raw. split; [exact Hp |]. split; [exact Hr |].
  apply records_of_text_spec in Hd. destruct split_paragraphs; [| exact Hd].
  destruct Hd as [Hin Ht]. split; [exact Hin |]. split.
  - apply truthy_nonempty, Ht.
  - apply strip_truthy, Ht.
Qed.

Lemma returned_records_witness :
  exists file_paths conv raws,
    enumerate no_pdftotext docs_tree [lit "docs"] = Ok (file_paths, conv)
    /\ file_paths = glob docs_tree [lit "docs"] (lit "**/*.txt")
                    ++ glob docs_tree [lit "docs"] (lit "**/*.pdf")
    /\ Forall2 (fun p raw => read_text docs_tree conv p = Ok raw) file_paths raws
    /\ [mkDocument (lit "first"); mkDocument (lit "second")]
       = flat_map (fun raw =>
                     map mkDocument
                         (List.filter (fun para => truthy (strip para))
                                      (split [LF; LF] (apply_clean None raw))))
                  raws
    /\ Forall (fun d =>
                 exists p raw,
                   In p file_paths
                   /\ read_text docs_tree conv p = Ok raw
                   /\ In (text d) (split [LF; LF] (apply_clean None raw))
                   /\ strip (text d) <> [] /\ text d <> [])
              [mkDocument (lit "first"); mkDocument (lit "second")].
Proof.
  apply (returned_records no_pdftotext docs_tree [lit "docs"] None true).
  reflexivity.
Defined.

(** C1 fails without paragraph splitting: an empty file gives a record
    whose text is empty. *)
Lemma empty_file_empty_record :
  exists documents,
    convert_files_to_documents no_pdftotext empty_file_tree [] None false = Ok documents
    /\ ~ Forall (fun d => text d <> []) documents.
Proof.
  exists [mkDocument []]. split; [reflexivity |].
  intros H. apply Forall_inv in H. apply H. reflexivity.
Qed.

Lemma abc_paragraphs :
  split [LF; LF] abc_text = [lit "a"; lit "b"; lit "  "; lit "c"]
  /\ kept_paragraphs abc_text = [lit "a"; lit "b"; lit "c"].
Proof. split; reflexivity. Qed.

(** The globs of a directory whose only entry is a regular file with the
    suffix [.txt]. *)
Lemma rglob_single_txt (fs : node) (dir_path : path) (nm raw : str) :
  resolve fs dir_path = Some (Dir [(nm, File raw)]) ->
  suffix [nm] = lit ".txt" ->
  rglob fs dir_path (lit "*.txt") = [dir_path ++ [nm]]
  /\ rglob fs dir_path (lit "*.pdf") = [].
Proof.
  intros Hdir [Ht Hp]%suffix_txt_fnmatch. unfold rglob. rewrite Hdir.
  cbn [iterate_directories flat_map app fst snd].
  unfold select_wildcard. cbn [List.filter fst snd]. rewrite Ht, Hp.
  split; reflexivity.
Qed.

Lemma suffix_last (p : path) (nm : str) : suffix (p ++ [nm]) = suffix [nm].
Proof. unfold suffix. rewrite name_snoc. reflexivity. Qed.

(** C5.  When the cleaned content of a file is [a], [b], two spaces and [c]
    separated by blank lines, the loop body adds the records [a], [b], [c]
    for it, in this order; a directory with that one file converts to
    exactly these three records. *)
Theorem abc_records (new : result PDFToText) (fs : node) (dir_path : path)
    (clean_func : option (str -> str)) (nm raw : str) :
  apply_clean clean_func raw = abc_text ->
  (forall conv p documents,
      read_text fs conv p = Ok raw ->
      convert_file fs conv clean_func true documents p
      = Ok (documents ++ [mkDocument (lit "a"); mkDocument (lit "b"); mkDocument (lit "c")]))
  /\ (resolve fs dir_path = Some (Dir [(nm, File raw)]) ->
      suffix [nm] = lit ".txt" ->
      convert_files_to_documents new fs dir_path clean_func true
      = Ok [mkDocument (lit "a"); mkDocument (lit "b"); mkDocument (lit "c")]).
Proof.
  intros Hclean.
  assert (Hbody : forall conv p documents,
             read_text fs conv p = Ok raw ->
             convert_file fs conv clean_func true documents p
             = Ok (documents ++ [mkDocument (lit "a"); mkDocument (lit "b");
                                 mkDocument (lit "c")])).
  { intros conv p documents Hread. rewrite convert_file_eq, Hread. simpl.
    rewrite Hclean. reflexivity. }
  split; [exact Hbody |].
  intros Hdir Hsfx. unfold convert_files_to_documents.
  rewrite enumerate_eq.
  destruct (rglob_single_txt fs dir_path nm raw Hdir Hsfx) as [-> ->].
  simpl. rewrite Hbody; [reflexivity |].
  unfold read_text. rewrite suffix_last, Hsfx.
  destruct (decide (lit ".txt" = lit ".txt")); [| congruence].
  unfold open_read. rewrite resolve_app, Hdir. simpl.
  destruct (decide (nm = nm)); [reflexivity | congruence].
Qed.

Lemma abc_records_witness :
  convert_files_to_documents no_pdftotext
    (Dir [(lit "notes", Dir [(lit "abc.txt", File abc_text)])]) [lit "notes"] None true
  = Ok [mkDocument (lit "a"); mkDocument (lit "b"); mkDocument (lit "c")].
Proof.
  apply (abc_records no_pdftotext _ [lit "notes"] None (lit "abc.txt") abc_text);
    reflexivity.
Defined.

(** ** Upper-casing cleaners *)

Lemma upper_is_uppercased (to_upper : N -> list N) :
  (forall c d, In d (to_upper c) -> to_upper d = [d]) ->
  forall s, is_uppercased to_upper (upper to_upper s).
Proof.
  intros Hidem s. apply List.Forall_forall. intros d Hd.
  apply in_flat_map in Hd as [c [_ Hd]]. exact (Hidem c d Hd).
Qed.

(** Upper-casing an upper-cased text changes nothing. *)
Lemma upper_fixed (to_upper : N -> list N) (s : str) :
  is_uppercased to_upper s -> upper to_upper s = s.
Proof.
  induction 1 as [| c s Hc _ IH]; [reflexivity |].
  unfold upper in *. cbn [flat_map]. rewrite Hc, IH. reflexivity.
Qed.

Lemma ascii_to_upper_idem (c d : N) :
  In d (ascii_to_upper c) -> ascii_to_upper d = [d].
Proof.
  unfold ascii_to_upper.
  destruct ((97 <=? c)%N && (c <=? 122)%N) eqn:Ec; intros [<- | []].
  - apply andb_true_iff in Ec as [H1%N.leb_le H2%N.leb_le].
    destruct (N.leb_spec 97 (c - 32)); [lia | reflexivity].
  - rewrite Ec. reflexivity.
Qed.

(** C7.  When the cleaning function returns upper-cased text, every record
    is fully upper-cased, with and without paragraph splitting: the cleaner
    is applied to the raw text of a file, and a record is a paragraph of the
    result or all of it. *)
Theorem uppercase_records (to_upper : N -> list N) (f : str -> str)
    (new : result PDFToText) (fs : node) (dir_path : path)
    (split_paragraphs : bool) (documents : list Document) :
  (forall s, is_uppercased to_upper (f s)) ->
  convert_files_to_documents new fs dir_path (Some f) split_paragraphs = Ok documents ->
  Forall (fun d =>
            is_uppercased to_upper (text d)
            /\ exists raw, if split_paragraphs
                           then In (text d) (split [LF; LF] (f raw))
                           else text d = f raw)
         documents.
Proof.
  intros Hup Hconv. apply records_from_cleaned_text in Hconv.
  eapply Forall_impl; [exact Hconv |]. clear Hconv.
  intros d [raw Hd]. simpl in Hd. split; [| exists raw; exact Hd].
  destruct split_paragraphs.
  - pose proof (split_chars (fun c => to_upper c = [c]) [LF; LF] (f raw) (Hup raw)) as Hs.
    rewrite List.Forall_forall in Hs. apply Hs, Hd.
  - rewrite Hd. apply Hup.
Qed.

Lemma uppercase_records_witness :
  Forall (fun d =>
            is_uppercased ascii_to_upper (text d)
            /\ exists raw, In (text d) (split [LF; LF] (upper ascii_to_upper raw)))
         [mkDocument (lit "FIRST"); mkDocument (lit "SECOND")].
Proof.
  apply (uppercase_records ascii_to_upper (upper ascii_to_upper)
           no_pdftotext docs_tree [lit "docs"] true).
  - apply upper_is_uppercased, ascii_to_upper_idem.
  - reflexivity.
Defined.

(** ** What the enumeration yields *)

(** The suffix of an enumerated path, by its name. *)
Lemma enumerated_name (new : result PDFToText) (fs : node) (dir_path : path)
    (file_paths : list path) (conv : option PDFToText) (p : path) :
  enumerate new fs dir_path = Ok (file_paths, conv) -> In p file_paths ->
  exists q s, p = q ++ [s ++ lit ".txt"] \/ p = q ++ [s ++ lit ".pdf"].
Proof.
  intros -> %enumerate_paths Hp. apply in_app_or in Hp as [Hp | Hp].
  - pose proof (rglob_matches fs dir_path (lit "*.txt")) as H.
    rewrite List.Forall_forall in H. destruct (H p Hp) as [q [nm [-> Hm]]].
    apply fnmatch_txt in Hm as [s ->]. exists q, s. left. reflexivity.
  - pose proof (rglob_matches fs dir_path (lit "*.pdf")) as H.
    rewrite List.Forall_forall in H. destruct (H p Hp) as [q [nm [-> Hm]]].
    apply fnmatch_pdf in Hm as [s ->]. exists q, s. right. reflexivity.
Qed.

(** C8, as the code has it.  An enumerated path whose name is more than
    [.txt] or [.pdf] has one of these two suffixes, so that the extraction
    step does not take its last branch for it; a file called just [.txt] or
    [.pdf] is enumerated too, has no suffix, and takes that branch. *)
Theorem enumerated_suffix (new : result PDFToText) (fs : node) (dir_path : path)
    (file_paths : list path) (conv : option PDFToText) (p : path) :
  enumerate new fs dir_path = Ok (file_paths, conv) -> In p file_paths ->
  (name p <> lit ".txt" -> name p <> lit ".pdf" ->
   suffix p = lit ".txt" \/ suffix p = lit ".pdf")
  /\ (name p = lit ".txt" \/ name p = lit ".pdf" ->
      suffix p = [] /\ read_text fs conv p = Raise (UnsupportedFormat [])).
Proof.
  intros Hen Hp.
  assert (Hbare : forall s ext : str,
             length ext = 4 ->
             s ++ ext = lit ".txt" \/ s ++ ext = lit ".pdf" -> s = []).
  { intros s ext Hext Hb.
    assert (Hlen : length (s ++ ext) = 4) by (destruct Hb as [-> | ->]; reflexivity).
    rewrite length_app in Hlen. destruct s; [reflexivity | simpl in Hlen; lia]. }
  destruct (enumerated_name _ _ _ _ _ _ Hen Hp) as [q [s [-> | ->]]];
    rewrite name_snoc; split.
  - intros Ht _. left. rewrite suffix_txt.
    case_decide; [subst s; contradiction | reflexivity].
  - intros ->%Hbare; [| reflexivity].
    assert (Hsfx : suffix (q ++ [[] ++ lit ".txt"]) = []) by apply suffix_txt.
    split; [exact Hsfx |].
    rewrite read_text_unsupported; rewrite Hsfx; [reflexivity | discriminate..].
  - intros _ Ht. right. rewrite suffix_pdf.
    case_decide; [subst s; contradiction | reflexivity].
  - intros ->%Hbare; [| reflexivity].
    assert (Hsfx : suffix (q ++ [[] ++ lit ".pdf"]) = []) by apply suffix_pdf.
    split; [exact Hsfx |].
    rewrite read_text_unsupported; rewrite Hsfx; [reflexivity | discriminate..].
Qed.

Lemma enumerated_suffix_witness :
  suffix [lit "docs"; lit "one.txt"] = lit ".txt"
  \/ suffix [lit "docs"; lit "one.txt"] = lit ".pdf".
Proof.
  refine (proj1 (enumerated_suffix no_pdftotext docs_tree [lit "docs"]
                   [[lit "docs"; lit "one.txt"]; [lit "docs"; lit "more"; lit "two.txt"]]
                   None [lit "docs"; lit "one.txt"] _ _) _ _).
  - reflexivity.
  - left. reflexivity.
  - discriminate.
  - discriminate.
Defined.

(** C8 fails on a file called just [.txt]: the enumeration yields it, its
    suffix is empty, and the conversion raises the unsupported-format
    error. *)
Lemma dot_txt_unsupported :
  exists file_paths conv p,
    enumerate no_pdftotext dot_txt_tree [] = Ok (file_paths, conv)
    /\ In p file_paths
    /\ suffix p <> lit ".txt" /\ suffix p <> lit ".pdf"
    /\ convert_files_to_documents no_pdftotext dot_txt_tree [] None false
       = Raise (UnsupportedFormat []).
Proof.
  exists [[lit ".txt"]], None, [lit ".txt"].
  split; [reflexivity |]. split; [left; reflexivity |].
  split; [discriminate |]. split; [discriminate | reflexivity].
Qed.



(** C10.  The returned sequence is the records of the files of the [.txt]
    glob, in the order of that glob, followed by the records of the files of
    the [.pdf] glob; the files of the first have the suffix [.txt] and are
    read with [open], those of the second have the suffix [.pdf] and are
    read with the converter of the enumeration; the records of one file
    follow the order of its paragraphs. *)
Theorem txt_records_first (new : result PDFToText) (fs : node) (dir_path : path)
    (clean_func : option (str -> str)) (split_paragraphs : bool)
    (documents : list Document) :
  convert_files_to_documents new fs dir_path clean_func split_paragraphs = Ok documents ->
  exists txt_raws pdf_raws conv,
    enumerate new fs dir_path
    = Ok (glob fs dir_path (lit "**/*.txt") ++ glob fs dir_path (lit "**/*.pdf"), conv)
    /\ Forall2 (fun p raw => suffix p = lit ".txt" /\ open_read fs p = Ok raw)
               (glob fs dir_path (lit "**/*.txt")) txt_raws
    /\ Forall2 (fun p raw => suffix p = lit ".pdf" /\ read_text fs conv p = Ok raw)
               (glob fs dir_path (lit "**/*.pdf")) pdf_raws
    /\ documents
       = flat_map (fun raw => records_of_text split_paragraphs (apply_clean clean_func raw))
                  txt_raws
         ++ flat_map (fun raw => records_of_text split_paragraphs (apply_clean clean_func raw))
                     pdf_raws
    /\ forall cleaned,
         records_of_text true cleaned
         = map mkDocument (List.filter (fun para => truthy (strip para))
                                       (split [LF; LF] cleaned)).
Proof.
  intros [file_paths [conv [raws [Hen [Hread ->]]]]]%convert_ok_enumerate.
  assert (Hfp := enumerate_paths _ _ _ _ _ Hen). subst file_paths.
  apply Forall2_app_inv_l in Hread as [txt_raws [pdf_raws [Htxt [Hpdf ->]]]].
  exists txt_raws, pdf_raws, conv. rewrite glob_txt, glob_pdf.
  split; [exact Hen |]. clear Hen.
  split; [| split; [| split; [apply flat_map_app | reflexivity]]].
  - pose proof (rglob_matches fs dir_path (lit "*.txt")) as Hm.
    induction Htxt as [| p raw ps raws' Hr _ IH]; [constructor |].
    apply Forall_cons in Hm as [[q [nm [-> [s ->]%fnmatch_txt]]] Hm].
    constructor; [| apply IH, Hm].
    apply read_text_ok in Hr as [Hr | Hr]; [exact Hr |].
    rewrite suffix_txt in Hr. case_decide; cbv in Hr; discriminate Hr.
  - pose proof (rglob_matches fs dir_path (lit "*.pdf")) as Hm.
    induction Hpdf as [| p raw ps raws' Hr _ IH]; [constructor |].
    apply Forall_cons in Hm as [[q [nm [-> [s ->]%fnmatch_pdf]]] Hm].
    constructor; [| apply IH, Hm].
    split; [| exact Hr].
    apply read_text_ok in Hr as [[Hr _] | Hr]; [| exact Hr].
    rewrite suffix_pdf in Hr. case_decide; cbv in Hr; discriminate Hr.
Qed.

Lemma txt_records_first_witness :
  convert_files_to_documents plain_pdftotext mixed_tree [lit "docs"] None false
  = Ok [mkDocument (lit "from txt"); mkDocument (lit "from pdf")]
  /\ exists txt_raws pdf_raws,
       Forall2 (fun p raw => suffix p = lit ".txt" /\ open_read mixed_tree p = Ok raw)
               (glob mixed_tree [lit "docs"] (lit "**/*.txt")) txt_raws
       /\ [mkDocument (lit "from txt"); mkDocument (lit "from pdf")]
          = flat_map (fun raw => [mkDocument raw]) txt_raws
            ++ flat_map (fun raw => [mkDocument raw]) pdf_raws.
Proof.
  split; [reflexivity |].
  destruct (txt_records_first plain_pdftotext mixed_tree [lit "docs"] None false
              [mkDocument (lit "from txt"); mkDocument (lit "from pdf")] eq_refl)
    as [txt_raws [pdf_raws [conv [_ [Htxt [_ [Hdocs _]]]]]]].
  exists txt_raws, pdf_raws. split; [exact Htxt | exact Hdocs].
Defined.

(** ** Directories of text files *)

Lemma child_NoDup (es : list (str * node)) (nm : str) (c : node) :
  NoDup (map fst es) -> In (nm, c) es -> child nm es = Some c.
Proof.
  induction es as [| [n0 c0] es IH]; intros Hnd Hin; [destruct Hin |].
  simpl in Hnd. apply NoDup_cons in Hnd as [Hn0 Hnd]. simpl.
  destruct Hin as [[= -> ->] | Hin].
  - destruct (decide (nm = nm)); [reflexivity | congruence].
  - destruct (decide (n0 = nm)) as [-> | _]; [| apply IH; assumption].
    exfalso. apply Hn0. apply list_elem_of_In, in_map_iff.
    exists (nm, c). split; [reflexivity | exact Hin].
Qed.









(** ** The Archive Fetcher *)

Lemma fresh_temp_file (w : world) :
  temp_files w !! fresh (dom (temp_files w)) = None.
Proof. apply not_elem_of_dom, is_fresh. Qed.

(** Whatever the block does and however it is left, the temporary file of
    a [with] block is gone after it. *)
Lemma with_NamedTemporaryFile_deletes {A} (body : nat -> M A) (w : world) :
  temp_files (with_NamedTemporaryFile body w).2 !! fresh (dom (temp_files w)) = None.
Proof.
  unfold with_NamedTemporaryFile.
  destruct (body _ _) as [r w']. simpl. apply lookup_delete_eq.
Qed.

(** The temporary files after a block that wrote to its own file only. *)
Lemma temp_files_restored (temps : gmap nat bytes) (data : bytes) :
  delete (fresh (dom temps))
         (<[fresh (dom temps) := data]> (<[fresh (dom temps) := []]> temps))
  = temps.
Proof.
  rewrite insert_insert_eq. apply delete_insert_id, not_elem_of_dom, is_fresh.
Qed.

(** The pattern [*] matches every name. *)
Lemma fnmatch_any (nm : str) : fnmatch (lit "*") nm = true.
Proof.
  change (lit "*") with [42%N]. induction nm as [| d nm IH]; [reflexivity |].
  simpl in *. exact IH.
Qed.

(** [rglob("*")] finds something exactly in a directory that has an entry. *)
Lemma rglob_any_entry (fs : node) (dir : path) (e : str * node) (es : list (str * node)) :
  resolve fs dir = Some (Dir (e :: es)) -> 0 < length (rglob fs dir (lit "*")).
Proof.
  intros H. unfold rglob. rewrite H.
  cbn [iterate_directories flat_map fst snd]. unfold select_wildcard at 1.
  cbn [List.filter]. rewrite fnmatch_any. simpl. lia.
Qed.

Lemma rglob_no_entry (fs : node) (dir : path) (pat : str) :
  resolve fs dir = Some (Dir []) -> rglob fs dir pat = [].
Proof. intros H. unfold rglob. rewrite H. reflexivity. Qed.

(** ** Creating the output directory *)

Lemma make_dirs_resolve (p : path) : resolve (make_dirs p) p = Some (Dir []).
Proof.
  induction p as [| nm p IH]; [reflexivity |].
  simpl. destruct (decide (nm = nm)); [exact IH | congruence].
Qed.

Lemma child_replace (nm : str) (c : node) (es : list (str * node)) :
  child nm es <> None -> child nm (replace_child nm c es) = Some c.
Proof.
  induction es as [| [n0 c0] es IH]; simpl; [congruence |].
  destruct (decide (n0 = nm)) as [-> | Hne]; simpl.
  - intros _. destruct (decide (nm = nm)); [reflexivity | congruence].
  - intros H. destruct (decide (n0 = nm)); [contradiction | apply IH, H].
Qed.

Lemma child_snoc (nm : str) (c : node) (es : list (str * node)) :
  child nm es = None -> child nm (es ++ [(nm, c)]) = Some c.
Proof.
  induction es as [| [n0 c0] es IH]; simpl.
  - intros _. destruct (decide (nm = nm)); [reflexivity | congruence].
  - destruct (decide (n0 = nm)); [discriminate | exact IH].
Qed.

(** [mkdir(parents=True)] on a path that does not exist, when it returns,
    leaves an empty directory at that path. *)
Lemma mkdir_parents_creates (full p : path) :
  forall fs fs',
  resolve fs p = None -> mkdir_parents full fs p = Ok fs' ->
  resolve fs' p = Some (Dir []).
Proof.
  induction p as [| nm p IH]; intros fs fs' Hnone Hmk; [discriminate Hnone |].
  simpl in Hnone, Hmk.
  destruct fs as [content | e | es]; [discriminate Hmk | discriminate Hmk |].
  destruct (child nm es) as [c |] eqn:Ec.
  - destruct (mkdir_parents full c p) as [c' |] eqn:Emk; [| discriminate Hmk].
    injection Hmk as <-. simpl. rewrite child_replace by congruence.
    apply (IH c c' Hnone Emk).
  - injection Hmk as <-. simpl. rewrite (child_snoc _ _ _ Ec).
    apply make_dirs_resolve.
Qed.

Section FetcherProperties.

Variable http_response : str -> option proxies -> bytes * option exn.
Variable zip_extractall : bytes -> path -> node -> node * option exn.
Variable tar_extractall : bytes -> path -> node -> node * option exn.

Local Notation "'fetch'" :=
  (fetch_archive_from_http http_response zip_extractall tar_extractall).

(** The call, path by path. *)
Lemma fetch_eq (url : str) (output_dir : path) (p : option proxies) (w : world) :
  fetch url output_dir p w =
    match (if exists_ (files w) output_dir then Ok (files w)
           else mkdir_parents output_dir (files w) output_dir) with
    | Raise e => (Raise e, w)
    | Ok f =>
        if bool_decide (0 < length (rglob f output_dir (lit "*")))
        then (Ok false, after w f (FoundData output_dir) [])
        else
          let l := Fetching url output_dir in
          match http_response url p with
          | (_, Some e) => (Raise e, after w f l [HttpGet url p])
          | (data, None) =>
              if decide (last_chars 4 url = lit ".zip") then
                (outcome (zip_extractall data output_dir f).2,
                 after w (zip_extractall data output_dir f).1 l
                       [HttpGet url p; ZipExtractAll output_dir])
              else if decide (last_chars 7 url = lit ".tar.gz") then
                (outcome (tar_extractall data output_dir f).2,
                 after w (tar_extractall data output_dir f).1 l
                       [HttpGet url p; TarExtractAll output_dir])
              else (Ok true, after w f l [HttpGet url p])
          end
    end.
Proof.
  unfold fetch_archive_from_http, after, with_NamedTemporaryFile, http_get, extract.
  destruct w as [f0 temps lg cs]. run_steps.
  destruct (exists_ f0 output_dir); run_steps.
  2: destruct (mkdir_parents output_dir f0 output_dir) as [f1 | e]; run_steps;
       [| reflexivity].
  all: destruct (bool_decide _); run_steps; [rewrite app_nil_r; reflexivity |].
  all: destruct (http_response url p) as [data [e |]]; run_steps.
  all: try (rewrite temp_files_restored; reflexivity).
  all: destruct (decide (last_chars 4 url = lit ".zip"));
       [| destruct (decide (last_chars 7 url = lit ".tar.gz"))];
       run_steps; rewrite ?lookup_insert_eq; run_steps.
  all: try (rewrite temp_files_restored; reflexivity).
  all: match goal with
       | |- context [zip_extractall ?d ?o ?f] =>
           destruct (zip_extractall d o f) as [f' [e' |]]
       | |- context [tar_extractall ?d ?o ?f] =>
           destruct (tar_extractall d o f) as [f' [e' |]]
       end;
       run_steps; rewrite temp_files_restored, <- ?app_assoc; reflexivity.
Qed.

(** C2.  When the URL ends neither in [.zip] nor in [.tar.gz] and the
    output directory is empty, the call downloads and extracts nothing:
    the one external call is the download, the tree is as it was, the
    output directory still empty, and the result is [True] (unless the
    download itself raised, which then propagates). *)
Theorem unknown_suffix_no_extraction (url : str) (output_dir : path)
    (p : option proxies) (w : world) :
  last_chars 4 url <> lit ".zip" ->
  last_chars 7 url <> lit ".tar.gz" ->
  resolve (files w) output_dir = Some (Dir []) ->
  fetch url output_dir p w
  = (outcome (http_response url p).2,
     after w (files w) (Fetching url output_dir) [HttpGet url p])
  /\ ((http_response url p).2 = None -> (fetch url output_dir p w).1 = Ok true)
  /\ calls (fetch url output_dir p w).2 = calls w ++ [HttpGet url p]
  /\ resolve (files (fetch url output_dir p w).2) output_dir = Some (Dir []).
Proof.
  intros Hzip Htar Hdir.
  assert (Heq : fetch url output_dir p w
                = (outcome (http_response url p).2,
                   after w (files w) (Fetching url output_dir) [HttpGet url p])).
  { rewrite fetch_eq. unfold exists_. rewrite Hdir.
    rewrite (rglob_no_entry _ _ _ Hdir).
    rewrite bool_decide_eq_false_2 by (cbn [length]; lia).
    destruct (http_response url p) as [data [e |]]; [reflexivity |].
    destruct (decide (last_chars 4 url = lit ".zip")); [contradiction |].
    destruct (decide (last_chars 7 url = lit ".tar.gz")); [contradiction |].
    reflexivity. }
  rewrite Heq. split; [reflexivity |]. split; [| split].
  - intros ->. reflexivity.
  - reflexivity.
  - exact Hdir.
Qed.

(** C3.  On every path of the call, the temporary file that the [with]
    block makes is gone when the call returns or raises: the name it would
    take is not in use afterwards, and the temporary files are those that
    were there before the call.  The block deletes its file whatever its
    body does. *)
Theorem temporary_file_deleted (url : str) (output_dir : path)
    (p : option proxies) (w : world) :
  let temp_file := fresh (dom (temp_files w)) in
  temp_files (fetch url output_dir p w).2 !! temp_file = None
  /\ temp_files (fetch url output_dir p w).2 = temp_files w
  /\ forall (A : Type) (body : nat -> M A),
       temp_files (with_NamedTemporaryFile body w).2 !! temp_file = None.
Proof.
  intros temp_file.
  assert (Heq : temp_files (fetch url output_dir p w).2 = temp_files w).
  { rewrite fetch_eq.
    destruct (if exists_ (files w) output_dir then _ else _) as [f | e]; [| reflexivity].
    destruct (bool_decide _); [reflexivity |].
    destruct (http_response url p) as [data [e |]]; [reflexivity |].
    destruct (decide (last_chars 4 url = lit ".zip")); [reflexivity |].
    destruct (decide (last_chars 7 url = lit ".tar.gz")); reflexivity. }
  split; [| split].
  - rewrite Heq. apply fresh_temp_file.
  - exact Heq.
  - intros A body. apply with_NamedTemporaryFile_deletes.
Qed.


End FetcherProperties.

Lemma unknown_suffix_no_extraction_witness :
  fetch_archive_from_http sample_response sample_extractall failing_extractall
    (lit "http://host/archive.7z") [lit "data"] None empty_data_world
  = (Ok true,
     mkWorld (Dir [(lit "data", Dir [])]) ∅
             [Fetching (lit "http://host/archive.7z") [lit "data"]]
             [HttpGet (lit "http://host/archive.7z") None]).
Proof.
  refine (proj1 (unknown_suffix_no_extraction sample_response sample_extractall
                   failing_extractall (lit "http://host/archive.7z") [lit "data"] None
                   empty_data_world _ _ _)).
  - discriminate.
  - discriminate.
  - reflexivity.
Defined.



(** * Further properties *)

(** ** The conversion as reading followed by cutting *)

Lemma for_each_read_all (fs : node) (conv : option PDFToText)
    (clean_func : option (str -> str)) (split_paragraphs : bool)
    (paths : list path) :
  forall documents,
  for_each (convert_file fs conv clean_func split_paragraphs) paths documents
  = (raws ← read_all fs conv paths;
     Ok (documents
         ++ flat_map (fun raw => records_of_text split_paragraphs
                                   (apply_clean clean_func raw)) raws)).
Proof.
  induction paths as [| p paths IH]; intros documents; simpl.
  - rewrite app_nil_r. reflexivity.
  - rewrite convert_file_eq.
    destruct (read_text fs conv p) as [raw | e]; simpl; [| reflexivity].
    rewrite IH. destruct (read_all fs conv paths) as [raws | e]; simpl; [| reflexivity].
    rewrite <- app_assoc. reflexivity.
Qed.

Lemma convert_read_all (new : result PDFToText) (fs : node) (dir_path : path)
    (clean_func : option (str -> str)) (split_paragraphs : bool) :
  convert_files_to_documents new fs dir_path clean_func split_paragraphs
  = ('(file_paths, conv) ← enumerate new fs dir_path;
     raws ← read_all fs conv file_paths;
     Ok (flat_map (fun raw => records_of_text split_paragraphs
                                (apply_clean clean_func raw)) raws)).
Proof.
  unfold convert_files_to_documents.
  destruct (enumerate new fs dir_path) as [[file_paths conv] | e]; simpl; [| reflexivity].
  apply for_each_read_all.
Qed.

(** X1.  Cleaning and paragraph splitting are steps after reading: the
    conversion with a cleaner and a split flag returns what one gets from
    the records of the plain conversion (no cleaner, no splitting) by
    cleaning the text of each and cutting it; and it raises what the plain
    conversion raises. *)
Theorem convert_from_plain (new : result PDFToText) (fs : node) (dir_path : path)
    (clean_func : option (str -> str)) (split_paragraphs : bool) :
  convert_files_to_documents new fs dir_path clean_func split_paragraphs
  = (plain ← convert_files_to_documents new fs dir_path None false;
     Ok (flat_map (fun d => records_of_text split_paragraphs
                              (apply_clean clean_func (text d))) plain)).
Proof.
  rewrite !convert_read_all.
  destruct (enumerate new fs dir_path) as [[file_paths conv] | e]; simpl; [| reflexivity].
  destruct (read_all fs conv file_paths) as [raws | e]; simpl; [| reflexivity].
  f_equal. induction raws as [| raw raws IH]; simpl; [reflexivity |].
  rewrite IH. reflexivity.
Qed.

(** X2.  Without paragraph splitting, a conversion that returns, returns as
    many records as the two globs yield paths: one for each enumerated
    file, [.txt] or [.pdf]. *)
Theorem one_record_per_path (new : result PDFToText) (fs : node) (dir_path : path)
    (clean_func : option (str -> str)) (documents : list Document) :
  convert_files_to_documents new fs dir_path clean_func false = Ok documents ->
  length documents
  = length (glob fs dir_path (lit "**/*.txt")) + length (glob fs dir_path (lit "**/*.pdf")).
Proof.
  intros [conv [raws [Hread ->]]]%convert_ok_inv.
  rewrite glob_txt, glob_pdf, <- length_app.
  rewrite (Forall2_length _ _ _ Hread).
  clear Hread. induction raws as [| raw raws IH]; [reflexivity |].
  cbn [flat_map]. rewrite length_app, IH. reflexivity.
Qed.

Lemma one_record_per_path_witness :
  length [mkDocument (lit "from txt"); mkDocument (lit "from pdf")]
  = length (glob mixed_tree [lit "docs"] (lit "**/*.txt"))
    + length (glob mixed_tree [lit "docs"] (lit "**/*.pdf")).
Proof.
  apply (one_record_per_path plain_pdftotext mixed_tree [lit "docs"] None).
  reflexivity.
Defined.

(** ** Blank texts and blank lines *)

Lemma lstrip_blank (s : str) : blank s -> lstrip s = [].
Proof.
  induction 1 as [| c s Hc _ IH]; simpl; [reflexivity |].
  rewrite Hc. exact IH.
Qed.

Lemma strip_blank (s : str) : blank s -> strip s = [].
Proof.
  intros H. unfold strip, rstrip. rewrite (lstrip_blank s H). reflexivity.
Qed.

(** A blank text has no paragraph that is kept. *)
Lemma kept_paragraphs_blank (s : str) : blank s -> kept_paragraphs s = [].
Proof.
  intros H. unfold kept_paragraphs.
  pose proof (split_chars (fun c => isspace c = true) [LF; LF] s H) as Hs.
  induction Hs as [| para paras Hp _ IH]; simpl; [reflexivity |].
  rewrite (strip_blank para Hp). exact IH.
Qed.

(** X3.  With paragraph splitting, files whose cleaned text is empty or
    white space only give no record: when every file of the plain
    conversion is of this kind, the conversion returns the empty list. *)
Theorem blank_files_no_record (new : result PDFToText) (fs : node) (dir_path : path)
    (clean_func : option (str -> str)) (plain : list Document) :
  convert_files_to_documents new fs dir_path None false = Ok plain ->
  Forall (fun d => blank (apply_clean clean_func (text d))) plain ->
  convert_files_to_documents new fs dir_path clean_func true = Ok [].
Proof.
  rewrite !convert_read_all.
  destruct (enumerate new fs dir_path) as [[file_paths conv] | e]; [| discriminate].
  cbn [mbind result_bind].
  destruct (read_all fs conv file_paths) as [raws | e]; [| discriminate].
  cbn [mbind result_bind]. intros [= <-] Hblank. f_equal.
  induction raws as [| raw raws IH]; [reflexivity |].
  cbn [flat_map records_of_text app] in Hblank.
  apply Forall_cons in Hblank as [Hraw Hblank]. cbn [text] in Hraw.
  cbn [flat_map]. rewrite (IH Hblank), app_nil_r.
  unfold records_of_text. rewrite (kept_paragraphs_blank _ Hraw). reflexivity.
Qed.

Lemma blank_files_no_record_witness :
  convert_files_to_documents no_pdftotext empty_file_tree [] None true = Ok [].
Proof.
  apply (blank_files_no_record no_pdftotext empty_file_tree [] None [mkDocument []]).
  - reflexivity.
  - repeat constructor.
Defined.

Lemma startswith_app_false (sep a s : str) :
  startswith sep (a ++ s) = false -> startswith sep a = false.
Proof.
  intros H. apply not_true_is_false. intros [t Ht]%startswith_spec.
  assert (Hs : startswith sep (a ++ s) = true).
  { apply startswith_spec. exists (t ++ s). rewrite Ht, <- app_assoc. reflexivity. }
  congruence.
Qed.

(** The separator starts nowhere in a piece of a split: the scan has cut
    at its first occurrence. *)
Lemma split_from_sep_free (sep : str) (fuel : nat) :
  sep <> [] ->
  forall cur s,
  length s < fuel ->
  (forall i, i < length cur -> startswith sep (drop i (rev cur ++ s)) = false) ->
  Forall (fun piece => forall i, startswith sep (drop i piece) = false)
         (split_from fuel sep cur s).
Proof.
  intros Hsep.
  assert (Hnil : startswith sep [] = false) by (destruct sep; [congruence | reflexivity]).
  assert (Hpiece : forall cur s,
             (forall i, i < length cur -> startswith sep (drop i (rev cur ++ s)) = false) ->
             forall i, startswith sep (drop i (rev cur)) = false).
  { intros cur s Hinv i. destruct (Nat.lt_ge_cases i (length cur)) as [Hi | Hi].
    - apply (startswith_app_false sep _ s).
      rewrite <- drop_app_le by (rewrite length_rev; lia). apply Hinv, Hi.
    - rewrite drop_ge by (rewrite length_rev; lia). exact Hnil. }
  induction fuel as [| fuel IH]; intros cur s Hlen Hinv; [lia |].
  simpl. destruct s as [| c s'].
  - constructor; [| constructor]. apply (Hpiece cur [] Hinv).
  - destruct (startswith sep (c :: s')) eqn:Es.
    + constructor; [apply (Hpiece cur (c :: s') Hinv) |].
      apply IH.
      * rewrite length_drop. simpl in Hlen. destruct sep; [congruence | simpl; lia].
      * simpl. intros i Hi. lia.
    + apply IH; [simpl in Hlen; lia |].
      intros i Hi. simpl rev. rewrite <- app_assoc. simpl app.
      simpl in Hi. destruct (decide (i = length cur)) as [-> | Hne].
      * rewrite <- (length_rev cur), drop_app_length. exact Es.
      * apply Hinv. lia.
Qed.

Lemma split_sep_free (sep s : str) :
  sep <> [] ->
  Forall (fun piece => forall i, startswith sep (drop i piece) = false) (split sep s).
Proof.
  intros Hsep. apply split_from_sep_free; [exact Hsep | lia |].
  simpl. intros i Hi. lia.
Qed.

(** X4.  With paragraph splitting, no record has a blank line in it: two
    line feeds in a row always end a paragraph. *)
Theorem records_without_blank_line (new : result PDFToText) (fs : node)
    (dir_path : path) (clean_func : option (str -> str))
    (documents : list Document) :
  convert_files_to_documents new fs dir_path clean_func true = Ok documents ->
  Forall (fun d => ~ has_blank_line (text d)) documents.
Proof.
  intros Hconv. apply records_from_cleaned_text in Hconv.
  eapply Forall_impl; [exact Hconv |]. clear Hconv.
  intros d [raw Hin] [a [b Hab]]. simpl in Hin.
  pose proof (split_sep_free [LF; LF] (apply_clean clean_func raw)) as Hfree.
  rewrite List.Forall_forall in Hfree.
  specialize (Hfree ltac:(discriminate) _ Hin (length a)).
  rewrite Hab, drop_app_length in Hfree. discriminate Hfree.
Qed.

Lemma records_without_blank_line_witness :
  Forall (fun d => ~ has_blank_line (text d))
         [mkDocument (lit "a"); mkDocument (lit "b"); mkDocument (lit "c")].
Proof.
  apply (records_without_blank_line no_pdftotext
           (Dir [(lit "notes", Dir [(lit "abc.txt", File abc_text)])])
           [lit "notes"] None).
  reflexivity.
Defined.

(** X5.  With paragraph splitting, a file none of whose paragraphs is blank
    loses nothing: the loop body adds records whose texts, joined by blank
    lines, are the cleaned text of the file. *)
Theorem paragraphs_rejoin (fs : node) (conv : option PDFToText)
    (clean_func : option (str -> str)) (documents : list Document)
    (p : path) (raw : str) :
  read_text fs conv p = Ok raw ->
  Forall (fun para => strip para <> [])
         (split [LF; LF] (apply_clean clean_func raw)) ->
  exists added,
    convert_file fs conv clean_func true documents p = Ok (documents ++ added)
    /\ join [LF; LF] (map text added) = apply_clean clean_func raw.
Proof.
  intros Hread Hall.
  exists (map mkDocument (kept_paragraphs (apply_clean clean_func raw))).
  split.
  - rewrite convert_file_eq, Hread. reflexivity.
  - rewrite map_map. simpl. rewrite map_id. unfold kept_paragraphs.
    rewrite <- (join_split [LF; LF] (apply_clean clean_func raw)) at 2.
    f_equal. induction Hall as [| para paras Hp _ IH]; simpl; [reflexivity |].
    apply truthy_nonempty in Hp. rewrite Hp, IH. reflexivity.
Qed.

Lemma paragraphs_rejoin_witness :
  exists added,
    convert_file docs_tree None None true [] [lit "docs"; lit "one.txt"] = Ok ([] ++ added)
    /\ join [LF; LF] (map text added) = lit "first".
Proof.
  apply (paragraphs_rejoin docs_tree None None [] [lit "docs"; lit "one.txt"] (lit "first")).
  - reflexivity.
  - repeat constructor. discriminate.
Defined.

(** ** The PDF converter *)

(** X6.  The tool behind [PDFToText] matters only when the [.pdf] glob has
    a path with the suffix [.pdf]: otherwise the constructor is not called,
    and the conversion is the same on a machine without the tool. *)
Theorem pdftotext_not_needed (new : result PDFToText) (fs : node) (dir_path : path)
    (clean_func : option (str -> str)) (split_paragraphs : bool) :
  lit ".pdf" ∉ map suffix (glob fs dir_path (lit "**/*.pdf")) ->
  convert_files_to_documents new fs dir_path clean_func split_paragraphs
  = convert_files_to_documents no_pdftotext fs dir_path clean_func split_paragraphs.
Proof.
  intros Hno. rewrite glob_pdf in Hno. unfold convert_files_to_documents.
  rewrite !enumerate_eq. cbn zeta.
  rewrite (bool_decide_eq_false_2 _ Hno). reflexivity.
Qed.

Lemma pdftotext_not_needed_witness :
  convert_files_to_documents plain_pdftotext docs_tree [lit "docs"] None false
  = convert_files_to_documents no_pdftotext docs_tree [lit "docs"] None false.
Proof.
  apply (pdftotext_not_needed plain_pdftotext docs_tree [lit "docs"] None false).
  vm_compute. intros H. inversion H.
Defined.

(** X7.  When the [.pdf] glob has a path with the suffix [.pdf] and the
    constructor of [PDFToText] raises, the conversion raises that exception
    before it reads any file, also when the [.txt] files are fine. *)
Theorem pdftotext_missing (fs : node) (dir_path : path)
    (clean_func : option (str -> str)) (split_paragraphs : bool) (e : exn) :
  lit ".pdf" ∈ map suffix (glob fs dir_path (lit "**/*.pdf")) ->
  convert_files_to_documents (Raise e) fs dir_path clean_func split_paragraphs
  = Raise e.
Proof.
  intros Hin. rewrite glob_pdf in Hin. unfold convert_files_to_documents.
  rewrite enumerate_eq. cbn zeta.
  rewrite (bool_decide_eq_true_2 _ Hin). reflexivity.
Qed.

Lemma pdftotext_missing_witness :
  convert_files_to_documents (Raise (External 0)) mixed_tree [lit "docs"] None false
  = Raise (External 0).
Proof.
  apply (pdftotext_missing mixed_tree [lit "docs"] None false (External 0)).
  vm_compute. left.
Defined.

(** X8.  When the enumeration returns, [pdf_converter] is a converter, not
    [None], as soon as one of the paths has the suffix [.pdf]: the text of
    such a path is what [extract_text] gives for it. *)
Theorem pdf_converter_present (new : result PDFToText) (fs : node) (dir_path : path)
    (file_paths : list path) (conv : option PDFToText) (p : path) :
  enumerate new fs dir_path = Ok (file_paths, conv) ->
  In p file_paths ->
  suffix p = lit ".pdf" ->
  exists c, conv = Some c /\ read_text fs conv p = extract_text c fs p.
Proof.
  intros Hen Hp Hsfx.
  assert (Hfp := enumerate_paths _ _ _ _ _ Hen). subst file_paths.
  assert (Hpdf : lit ".pdf" ∈ map suffix (rglob fs dir_path (lit "*.pdf"))).
  { apply in_app_or in Hp as [Hp | Hp].
    - exfalso. apply (rglob_txt_suffix fs dir_path).
      apply list_elem_of_In, in_map_iff. exists p. split; assumption.
    - apply list_elem_of_In, in_map_iff. exists p. split; assumption. }
  rewrite enumerate_eq in Hen. cbn zeta in Hen.
  rewrite (bool_decide_eq_true_2 _ Hpdf) in Hen.
  destruct new as [c | e]; [| discriminate Hen].
  injection Hen as <-. exists c. split; [reflexivity |].
  unfold read_text. rewrite Hsfx.
  destruct (decide (lit ".pdf" = lit ".txt")) as [H | _]; [discriminate H |].
  destruct (decide (lit ".pdf" = lit ".pdf")); [reflexivity | congruence].
Qed.

Lemma pdf_converter_present_witness :
  exists c,
    Some {| extract_text := open_read |} = Some c
    /\ read_text mixed_tree (Some {| extract_text := open_read |}) [lit "docs"; lit "b.pdf"]
       = extract_text c mixed_tree [lit "docs"; lit "b.pdf"].
Proof.
  apply (pdf_converter_present plain_pdftotext mixed_tree [lit "docs"]
           [[lit "docs"; lit "a.txt"]; [lit "docs"; lit "b.pdf"]]).
  - reflexivity.
  - right. left. reflexivity.
  - reflexivity.
Defined.

(** ** Failures *)

Lemma read_all_failure (fs : node) (conv : option PDFToText)
    (before after_ : list path) (p : path) (e : exn) :
  Forall (fun q => exists raw, read_text fs conv q = Ok raw) before ->
  read_text fs conv p = Raise e ->
  read_all fs conv (before ++ p :: after_) = Raise e.
Proof.
  intros Hbefore Hp. induction Hbefore as [| q qs [raw Hq] _ IH]; simpl.
  - rewrite Hp. reflexivity.
  - rewrite Hq. simpl. rewrite IH. reflexivity.
Qed.

(** X9.  The first file that cannot be read ends the conversion: its
    exception is raised as it is, and no record is returned, whatever was
    read before it and whatever follows it. *)
Theorem first_failure_propagates (new : result PDFToText) (fs : node)
    (dir_path : path) (clean_func : option (str -> str)) (split_paragraphs : bool)
    (conv : option PDFToText) (before after_ : list path) (p : path) (e : exn) :
  enumerate new fs dir_path = Ok (before ++ p :: after_, conv) ->
  Forall (fun q => exists raw, read_text fs conv q = Ok raw) before ->
  read_text fs conv p = Raise e ->
  convert_files_to_documents new fs dir_path clean_func split_paragraphs = Raise e.
Proof.
  intros Hen Hbefore Hp. rewrite convert_read_all, Hen. simpl.
  rewrite (read_all_failure _ _ _ _ _ _ Hbefore Hp). reflexivity.
Qed.

Lemma first_failure_propagates_witness :
  convert_files_to_documents no_pdftotext txt_directory_tree [lit "docs"] None false
  = Raise (IsADirectoryError [lit "docs"; lit "old.txt"]).
Proof.
  apply (first_failure_propagates no_pdftotext txt_directory_tree [lit "docs"] None false
           None [[lit "docs"; lit "a.txt"]] [] [lit "docs"; lit "old.txt"]).
  - reflexivity.
  - constructor; [| constructor]. exists (lit "text"). reflexivity.
  - reflexivity.
Defined.

Lemma Forall2_In_l {A B} (R : A -> B -> Prop) (l : list A) (k : list B) (x : A) :
  Forall2 R l k -> In x l -> exists y, In y k /\ R x y.
Proof.
  induction 1 as [| x' y l k HR _ IH]; intros Hx; [destruct Hx |].
  destruct Hx as [-> | Hx].
  - exists y. split; [left; reflexivity | exact HR].
  - destruct (IH Hx) as [y' [Hy' HR']]. exists y'. split; [right; exact Hy' | exact HR'].
Qed.

(** A recursive glob yields the entries of the directory itself that the
    pattern matches. *)
Lemma rglob_entry (fs : node) (dir : path) (pat : str)
    (es : list (str * node)) (nm : str) (c : node) :
  resolve fs dir = Some (Dir es) -> In (nm, c) es -> fnmatch pat nm = true ->
  In (dir ++ [nm]) (rglob fs dir pat).
Proof.
  intros Hdir He Hm. unfold rglob. rewrite Hdir.
  cbn [iterate_directories flat_map fst snd]. apply in_or_app. left.
  unfold select_wildcard. apply in_map_iff. exists (nm, c). split; [reflexivity |].
  apply filter_In. split; [exact He | exact Hm].
Qed.

(** X10.  A sub-directory whose name has the suffix [.txt] makes the
    conversion fail: the [.txt] glob yields it like a file, and it cannot be
    read. *)
Theorem txt_directory_raises (new : result PDFToText) (fs : node) (dir_path : path)
    (clean_func : option (str -> str)) (split_paragraphs : bool)
    (es sub : list (str * node)) (nm : str) :
  resolve fs dir_path = Some (Dir es) ->
  NoDup (map fst es) ->
  In (nm, Dir sub) es ->
  suffix [nm] = lit ".txt" ->
  exists e,
    convert_files_to_documents new fs dir_path clean_func split_paragraphs = Raise e.
Proof.
  intros Hdir Hnd He Hsfx.
  destruct (convert_files_to_documents new fs dir_path clean_func split_paragraphs)
    as [documents | e] eqn:Hconv; [exfalso | exists e; reflexivity].
  apply convert_ok_inv in Hconv as [conv [raws [Hread _]]].
  assert (Hin : In (dir_path ++ [nm])
                   (rglob fs dir_path (lit "*.txt") ++ rglob fs dir_path (lit "*.pdf"))).
  { apply in_or_app. left. apply (rglob_entry fs dir_path _ es nm (Dir sub) Hdir He).
    apply suffix_txt_fnmatch, Hsfx. }
  destruct (Forall2_In_l _ _ _ _ Hread Hin) as [raw [_ Hraw]].
  apply read_text_ok in Hraw as [[_ Hopen] | Hpdf].
  - unfold open_read in Hopen. rewrite resolve_app, Hdir in Hopen. simpl in Hopen.
    rewrite (child_NoDup es nm (Dir sub) Hnd He) in Hopen. discriminate Hopen.
  - rewrite suffix_last, Hsfx in Hpdf. discriminate Hpdf.
Qed.

Lemma txt_directory_raises_witness :
  exists e,
    convert_files_to_documents no_pdftotext txt_directory_tree [lit "docs"] None true
    = Raise e.
Proof.
  apply (txt_directory_raises no_pdftotext txt_directory_tree [lit "docs"] None true
           [(lit "a.txt", File (lit "text")); (lit "old.txt", Dir [])] [] (lit "old.txt")).
  - reflexivity.
  - vm_compute. repeat constructor; intros H; inversion H; subst;
      repeat match goal with H : _ ∈ _ |- _ => inversion H; clear H; subst end.
  - right. left. reflexivity.
  - reflexivity.
Defined.

(** ** Other formats *)

Lemma iterate_directories_no_match (d : node) :
  no_documents d = true ->
  forall p,
  Forall (fun v => Forall (fun e => fnmatch (lit "*.txt") e.1 = false
                                    /\ fnmatch (lit "*.pdf") e.1 = false) v.2)
         (iterate_directories p d).
Proof.
  induction d as [content | e | es IH] using node_induction; intros Hno p;
    [constructor | constructor |].
  cbn [no_documents] in Hno. rewrite forallb_forall in Hno.
  rewrite List.Forall_forall in IH.
  cbn [iterate_directories]. constructor.
  - apply List.Forall_forall. intros e He. specialize (Hno _ He).
    apply andb_true_iff in Hno as [[Ht%negb_true_iff Hp%negb_true_iff]%andb_true_iff _].
    split; assumption.
  - apply List.Forall_forall. intros v Hv.
    apply in_flat_map in Hv as [e [He Hv]].
    specialize (Hno _ He). apply andb_true_iff in Hno as [_ Hno].
    specialize (IH _ He Hno (p ++ [e.1])).
    rewrite List.Forall_forall in IH. apply IH, Hv.
Qed.

Lemma rglob_no_match (fs : node) (dir_path : path) (d : node) :
  resolve fs dir_path = Some d -> no_documents d = true ->
  rglob fs dir_path (lit "*.txt") = [] /\ rglob fs dir_path (lit "*.pdf") = [].
Proof.
  intros Hdir Hno. unfold rglob. rewrite Hdir.
  destruct d as [content | e | es]; [split; reflexivity | split; reflexivity |].
  pose proof (iterate_directories_no_match _ Hno dir_path) as Hall.
  induction Hall as [| v vs Hv _ [IHt IHp]]; [split; reflexivity |].
  cbn [flat_map]. rewrite IHt, IHp, !app_nil_r.
  unfold select_wildcard. clear IHt IHp.
  induction Hv as [| e es' [Ht Hp] _ [IHt IHp]]; [split; reflexivity |].
  cbn [List.filter]. rewrite Ht, Hp. split; assumption.
Qed.

(** X11.  Files of other formats are ignored, not reported: a tree in which
    no name ends in [.txt] or [.pdf] converts to the empty list, without a
    file being read and without the PDF tool. *)
Theorem other_formats_ignored (new : result PDFToText) (fs : node) (dir_path : path)
    (d : node) (clean_func : option (str -> str)) (split_paragraphs : bool) :
  resolve fs dir_path = Some d ->
  no_documents d = true ->
  enumerate new fs dir_path = Ok ([], None)
  /\ convert_files_to_documents new fs dir_path clean_func split_paragraphs = Ok [].
Proof.
  intros Hdir Hno.
  destruct (rglob_no_match fs dir_path d Hdir Hno) as [Ht Hp].
  assert (Hen : enumerate new fs dir_path = Ok ([], None)).
  { rewrite enumerate_eq, Ht, Hp. reflexivity. }
  split; [exact Hen |].
  unfold convert_files_to_documents. rewrite Hen. reflexivity.
Qed.

Lemma other_formats_ignored_witness :
  enumerate no_pdftotext other_formats_tree [lit "docs"] = Ok ([], None)
  /\ convert_files_to_documents no_pdftotext other_formats_tree [lit "docs"] None false
     = Ok [].
Proof.
  apply (other_formats_ignored no_pdftotext other_formats_tree [lit "docs"]
           (Dir [(lit "report.docx", File (lit "docx"));
                 (lit "img", Dir [(lit "scan.png", File (lit "png"))])]));
    reflexivity.
Defined.

(** ** The suffix tests of the Archive Fetcher *)

Lemma last_chars_endswith (sfx url : str) :
  last_chars (length sfx) url = sfx <-> exists s, url = s ++ sfx.
Proof.
  unfold last_chars. split.
  - intros H. exists (take (length url - length sfx) url).
    etransitivity; [symmetry; apply (take_drop (length url - length sfx)) |].
    f_equal. exact H.
  - intros [s ->]. rewrite length_app.
    replace (length s + length sfx - length sfx) with (length s) by lia.
    apply drop_app_length.
Qed.

(** X12.  The two tests on the URL are tests of how it ends, whatever its
    length, and at most one of them holds: [url[-4:] == ".zip"] says that
    the URL ends with [.zip], [url[-7:] == ".tar.gz"] that it ends with
    [.tar.gz]. *)
Theorem suffix_tests (url : str) :
  (last_chars 4 url = lit ".zip" <-> exists s, url = s ++ lit ".zip")
  /\ (last_chars 7 url = lit ".tar.gz" <-> exists s, url = s ++ lit ".tar.gz")
  /\ ~ (last_chars 4 url = lit ".zip" /\ last_chars 7 url = lit ".tar.gz").
Proof.
  split; [apply (last_chars_endswith (lit ".zip")) |].
  split; [apply (last_chars_endswith (lit ".tar.gz")) |].
  intros [[s Hs]%(last_chars_endswith (lit ".zip"))
          [t Ht]%(last_chars_endswith (lit ".tar.gz"))].
  rewrite Hs in Ht.
  change (lit ".zip") with (lit ".zi" ++ [112%N]) in Ht.
  change (lit ".tar.gz") with (lit ".tar.g" ++ [122%N]) in Ht.
  rewrite !app_assoc in Ht. apply app_inj_tail in Ht as [_ Ht]. discriminate Ht.
Qed.

(** ** Creating the output directory, continued *)

Lemma child_replace_ne (nm other : str) (c : node) (es : list (str * node)) :
  other <> nm -> child other (replace_child nm c es) = child other es.
Proof.
  intros Hne. induction es as [| [n0 c0] es IH]; [reflexivity |].
  simpl. destruct (decide (n0 = nm)) as [-> | Hn0]; simpl.
  - destruct (decide (nm = other)); [congruence | reflexivity].
  - destruct (decide (n0 = other)); [reflexivity | exact IH].
Qed.

Lemma child_app_l (nm : str) (c : node) (es more : list (str * node)) :
  child nm es = Some c -> child nm (es ++ more) = Some c.
Proof.
  induction es as [| [n0 c0] es IH]; simpl; [discriminate |].
  destruct (decide (n0 = nm)); [trivial | exact IH].
Qed.

(** [mkdir(parents=True)] keeps what is there: a regular file of the tree
    is found under the same path, with the same content, after the
    directories have been made. *)
Lemma mkdir_parents_keeps_files (full p : path) :
  forall (fs fs' : node) (q : path) (content : str),
  mkdir_parents full fs p = Ok fs' ->
  resolve fs q = Some (File content) ->
  resolve fs' q = Some (File content).
Proof.
  induction p as [| nm p IH]; intros fs fs' q content Hmk Hq; [discriminate Hmk |].
  simpl in Hmk. destruct fs as [c0 | e0 | es]; [discriminate Hmk | discriminate Hmk |].
  destruct q as [| other q]; [discriminate Hq |].
  simpl in Hq. destruct (child other es) as [cq |] eqn:Ecq; [| discriminate Hq].
  destruct (child nm es) as [cn |] eqn:Ecn.
  - destruct (mkdir_parents full cn p) as [cn' |] eqn:Emk; [| discriminate Hmk].
    injection Hmk as <-. simpl.
    destruct (decide (other = nm)) as [-> | Hne].
    + rewrite child_replace by congruence.
      assert (cq = cn) as -> by congruence.
      apply (IH cn cn' q content Emk Hq).
    + rewrite child_replace_ne by exact Hne. rewrite Ecq. exact Hq.
  - injection Hmk as <-. simpl. rewrite (child_app_l _ _ _ _ Ecq). exact Hq.
Qed.

Lemma mkdir_parents_under_file (full : path) (before rest : path) (content : str) :
  forall fs,
  resolve fs before = Some (File content) -> rest <> [] ->
  resolve fs (before ++ rest) = None
  /\ mkdir_parents full fs (before ++ rest) = Raise (NotADirectoryError full).
Proof.
  induction before as [| nm before IH]; intros fs Hres Hrest.
  - injection Hres as ->. destruct rest as [| r rest]; [congruence |].
    split; reflexivity.
  - simpl in Hres.
    destruct fs as [c0 | e0 | es]; [discriminate Hres | discriminate Hres |].
    destruct (child nm es) as [c |] eqn:Ec; [| discriminate Hres].
    destruct (IH c Hres Hrest) as [Hnone Hmk].
    simpl. rewrite Ec, Hnone, Hmk. split; reflexivity.
Qed.

Section FetcherFurther.

Variable http_response : str -> option proxies -> bytes * option exn.
Variable zip_extractall : bytes -> path -> node -> node * option exn.
Variable tar_extractall : bytes -> path -> node -> node * option exn.

Local Notation "'fetch'" :=
  (fetch_archive_from_http http_response zip_extractall tar_extractall).

(** The call on an output directory that is there and empty. *)
Lemma fetch_empty (url : str) (output_dir : path) (p : option proxies) (w : world) :
  resolve (files w) output_dir = Some (Dir []) ->
  fetch url output_dir p w =
    let l := Fetching url output_dir in
    match http_response url p with
    | (_, Some e) => (Raise e, after w (files w) l [HttpGet url p])
    | (data, None) =>
        if decide (last_chars 4 url = lit ".zip") then
          (outcome (zip_extractall data output_dir (files w)).2,
           after w (zip_extractall data output_dir (files w)).1 l
                 [HttpGet url p; ZipExtractAll output_dir])
        else if decide (last_chars 7 url = lit ".tar.gz") then
          (outcome (tar_extractall data output_dir (files w)).2,
           after w (tar_extractall data output_dir (files w)).1 l
                 [HttpGet url p; TarExtractAll output_dir])
        else (Ok true, after w (files w) l [HttpGet url p])
    end.
Proof.
  intros Hdir. rewrite fetch_eq. unfold exists_. rewrite Hdir.
  rewrite (rglob_no_entry _ _ _ Hdir).
  rewrite bool_decide_eq_false_2 by (cbn [length]; lia). reflexivity.
Qed.

(** X14.  On an empty output directory, a URL that ends with [.zip] and
    whose download succeeds is handed to the zip library, once, with the
    bytes that were downloaded; the tar library is not called; the call
    returns [True] when the extraction returns and raises what it raises. *)
Theorem zip_url_extracted (s : str) (output_dir : path) (p : option proxies)
    (w : world) (data : bytes) :
  resolve (files w) output_dir = Some (Dir []) ->
  http_response (s ++ lit ".zip") p = (data, None) ->
  fetch (s ++ lit ".zip") output_dir p w
  = (outcome (zip_extractall data output_dir (files w)).2,
     after w (zip_extractall data output_dir (files w)).1
           (Fetching (s ++ lit ".zip") output_dir)
           [HttpGet (s ++ lit ".zip") p; ZipExtractAll output_dir]).
Proof.
  intros Hdir Hget. rewrite (fetch_empty _ _ _ _ Hdir). cbn zeta. rewrite Hget.
  destruct (decide (last_chars 4 (s ++ lit ".zip") = lit ".zip")) as [_ | Hne];
    [reflexivity |].
  exfalso. apply Hne. apply (last_chars_endswith (lit ".zip")). exists s. reflexivity.
Qed.

(** X15.  Likewise a URL that ends with [.tar.gz] is handed to the tar
    library, once, with the bytes that were downloaded, and the zip library
    is not called. *)
Theorem tar_url_extracted (s : str) (output_dir : path) (p : option proxies)
    (w : world) (data : bytes) :
  resolve (files w) output_dir = Some (Dir []) ->
  http_response (s ++ lit ".tar.gz") p = (data, None) ->
  fetch (s ++ lit ".tar.gz") output_dir p w
  = (outcome (tar_extractall data output_dir (files w)).2,
     after w (tar_extractall data output_dir (files w)).1
           (Fetching (s ++ lit ".tar.gz") output_dir)
           [HttpGet (s ++ lit ".tar.gz") p; TarExtractAll output_dir]).
Proof.
  intros Hdir Hget. rewrite (fetch_empty _ _ _ _ Hdir). cbn zeta. rewrite Hget.
  assert (Htar : last_chars 7 (s ++ lit ".tar.gz") = lit ".tar.gz").
  { apply (last_chars_endswith (lit ".tar.gz")). exists s. reflexivity. }
  destruct (decide (last_chars 4 (s ++ lit ".tar.gz") = lit ".zip")) as [Hzip | _].
  - exfalso. apply (last_chars_endswith (lit ".zip")) in Hzip as [t Ht].
    change (lit ".zip") with (lit ".zi" ++ [112%N]) in Ht.
    change (lit ".tar.gz") with (lit ".tar.g" ++ [122%N]) in Ht.
    rewrite !app_assoc in Ht. apply app_inj_tail in Ht as [_ Ht]. discriminate Ht.
  - destruct (decide (last_chars 7 (s ++ lit ".tar.gz") = lit ".tar.gz"));
      [reflexivity | contradiction].
Qed.

(** X16.  When the download raises, nothing is extracted, whatever the URL
    ends with: the exception propagates, the tree is as it was, and since
    the output directory is still empty a second call downloads again. *)
Theorem download_failure (url : str) (output_dir : path) (p : option proxies)
    (w : world) (data : bytes) (e : exn) :
  resolve (files w) output_dir = Some (Dir []) ->
  http_response url p = (data, Some e) ->
  fetch url output_dir p w
  = (Raise e, after w (files w) (Fetching url output_dir) [HttpGet url p])
  /\ calls (fetch url output_dir p (fetch url output_dir p w).2).2
     = calls w ++ [HttpGet url p; HttpGet url p].
Proof.
  intros Hdir Hget.
  assert (Hfail : forall w0, resolve (files w0) output_dir = Some (Dir []) ->
             fetch url output_dir p w0
             = (Raise e, after w0 (files w0) (Fetching url output_dir) [HttpGet url p])).
  { intros w0 H0. rewrite (fetch_empty _ _ _ _ H0). cbn zeta. rewrite Hget. reflexivity. }
  rewrite (Hfail w Hdir). split; [reflexivity |].
  cbn [snd]. rewrite Hfail by exact Hdir. cbn [snd after calls].
  rewrite <- app_assoc. reflexivity.
Qed.

(** X17.  A failed extraction that left an entry in the output directory
    blocks the next call: the first call raises the exception of the
    extraction, the second finds data, downloads nothing and returns
    [False]. *)
Theorem failed_extraction_blocks_retry (s : str) (output_dir : path)
    (p : option proxies) (w : world) (data : bytes) (f : node) (e : exn)
    (x : str * node) (xs : list (str * node)) :
  resolve (files w) output_dir = Some (Dir []) ->
  http_response (s ++ lit ".zip") p = (data, None) ->
  zip_extractall data output_dir (files w) = (f, Some e) ->
  resolve f output_dir = Some (Dir (x :: xs)) ->
  let first := fetch (s ++ lit ".zip") output_dir p w in
  first.1 = Raise e
  /\ fetch (s ++ lit ".zip") output_dir p first.2
     = (Ok false,
        mkWorld f (temp_files w) (log first.2 ++ [FoundData output_dir]) (calls first.2)).
Proof.
  intros Hdir Hget Hzip Hf first.
  assert (Hfirst : first
                   = (Raise e, after w f (Fetching (s ++ lit ".zip") output_dir)
                                     [HttpGet (s ++ lit ".zip") p;
                                      ZipExtractAll output_dir])).
  { unfold first. rewrite (fetch_empty _ _ _ _ Hdir). cbn zeta. rewrite Hget.
    destruct (decide (last_chars 4 (s ++ lit ".zip") = lit ".zip")) as [_ | Hne].
    - rewrite Hzip. reflexivity.
    - exfalso. apply Hne. apply (last_chars_endswith (lit ".zip")). exists s.
      reflexivity. }
  rewrite Hfirst. split; [reflexivity |].
  cbn [snd]. rewrite fetch_eq. unfold exists_. cbn [after files]. rewrite Hf.
  rewrite bool_decide_eq_true_2 by (eapply rglob_any_entry; exact Hf).
  unfold after. cbn [files temp_files log calls]. rewrite app_nil_r. reflexivity.
Qed.

(** X18.  An output directory that does not exist is made, empty, before
    anything else: from there on the call is the call on a tree that has
    the empty directory already. *)
Theorem missing_output_dir_created (url : str) (output_dir : path)
    (p : option proxies) (w : world) (f : node) :
  resolve (files w) output_dir = None ->
  mkdir_parents output_dir (files w) output_dir = Ok f ->
  resolve f output_dir = Some (Dir [])
  /\ fetch url output_dir p w = fetch url output_dir p (set_files f w).
Proof.
  intros Hnone Hmk.
  pose proof (mkdir_parents_creates _ _ _ _ Hnone Hmk) as Hf.
  split; [exact Hf |].
  rewrite !fetch_eq. unfold exists_. cbn [set_files files]. rewrite Hnone, Hmk, Hf.
  reflexivity.
Qed.

(** X13.  Making a missing output directory disturbs no file: when nothing
    is extracted (the URL ends neither in [.zip] nor in [.tar.gz]), every
    regular file of the tree is there after the call, under the same path
    and with the same content. *)
Theorem existing_files_kept (url : str) (output_dir : path)
    (p : option proxies) (w : world) (q : path) (content : str) :
  resolve (files w) output_dir = None ->
  last_chars 4 url <> lit ".zip" ->
  last_chars 7 url <> lit ".tar.gz" ->
  resolve (files w) q = Some (File content) ->
  resolve (files (fetch url output_dir p w).2) q = Some (File content).
Proof.
  intros Hnone Hzip Htar Hq. rewrite fetch_eq. unfold exists_. rewrite Hnone.
  destruct (mkdir_parents output_dir (files w) output_dir) as [f | e] eqn:Hmk;
    [| exact Hq].
  pose proof (mkdir_parents_creates _ _ _ _ Hnone Hmk) as Hf.
  pose proof (mkdir_parents_keeps_files _ _ _ _ _ _ Hmk Hq) as Hkept.
  rewrite (rglob_no_entry _ _ _ Hf).
  rewrite bool_decide_eq_false_2 by (cbn [length]; lia). cbn zeta.
  destruct (http_response url p) as [data [e |]]; [exact Hkept |].
  destruct (decide (last_chars 4 url = lit ".zip")); [contradiction |].
  destruct (decide (last_chars 7 url = lit ".tar.gz")); [contradiction |].
  exact Hkept.
Qed.

(** X19.  When a component of the output path is a regular file, the
    directory cannot be made: the call raises [NotADirectoryError] for the
    output path, downloads nothing and leaves the world as it is. *)
Theorem output_dir_under_file (url : str) (before rest : path)
    (p : option proxies) (w : world) (content : str) :
  resolve (files w) before = Some (File content) ->
  rest <> [] ->
  fetch url (before ++ rest) p w = (Raise (NotADirectoryError (before ++ rest)), w).
Proof.
  intros Hfile Hrest.
  destruct (mkdir_parents_under_file (before ++ rest) before rest content
              (files w) Hfile Hrest) as [Hnone Hmk].
  rewrite fetch_eq. unfold exists_. rewrite Hnone, Hmk. reflexivity.
Qed.

(** X20.  An output path that is a regular file passes for an empty
    directory: nothing is found under it, so the call does not return
    [False] but downloads, and leaves the path to the extraction. *)
Theorem output_dir_is_file (url : str) (output_dir : path)
    (p : option proxies) (w : world) (content : str) :
  resolve (files w) output_dir = Some (File content) ->
  (fetch url output_dir p w).1 <> Ok false
  /\ exists rest, calls (fetch url output_dir p w).2 = calls w ++ HttpGet url p :: rest.
Proof.
  intros Hfile.
  assert (Hnd : is_dir (files w) output_dir = false)
    by (unfold is_dir; rewrite Hfile; reflexivity).
  rewrite fetch_eq. unfold exists_. rewrite Hfile, (rglob_missing _ _ _ Hnd).
  rewrite bool_decide_eq_false_2 by (cbn [length]; lia). cbn zeta.
  destruct (http_response url p) as [data [e |]].
  { split; [discriminate | exists []; reflexivity]. }
  destruct (decide (last_chars 4 url = lit ".zip")).
  { split; [| eexists; reflexivity].
    destruct (zip_extractall data output_dir (files w)) as [f' [e' |]]; discriminate. }
  destruct (decide (last_chars 7 url = lit ".tar.gz")).
  { split; [| eexists; reflexivity].
    destruct (tar_extractall data output_dir (files w)) as [f' [e' |]]; discriminate. }
  split; [discriminate | exists []; reflexivity].
Qed.

End FetcherFurther.

Lemma zip_url_extracted_witness :
  fetch_archive_from_http sample_response sample_extractall failing_extractall
    (lit "http://host/archive" ++ lit ".zip") [lit "data"] None empty_data_world
  = (Ok true,
     after empty_data_world
           (Dir [(lit "data", Dir [(lit "a.txt", File (lit "PK"))])])
           (Fetching (lit "http://host/archive" ++ lit ".zip") [lit "data"])
           [HttpGet (lit "http://host/archive" ++ lit ".zip") None;
            ZipExtractAll [lit "data"]]).
Proof.
  apply (zip_url_extracted sample_response sample_extractall failing_extractall
           (lit "http://host/archive") [lit "data"] None empty_data_world (lit "PK"));
    reflexivity.
Defined.

Lemma tar_url_extracted_witness :
  fetch_archive_from_http sample_response failing_extractall sample_extractall
    (lit "http://host/archive" ++ lit ".tar.gz") [lit "data"] None empty_data_world
  = (Ok true,
     after empty_data_world
           (Dir [(lit "data", Dir [(lit "a.txt", File (lit "PK"))])])
           (Fetching (lit "http://host/archive" ++ lit ".tar.gz") [lit "data"])
           [HttpGet (lit "http://host/archive" ++ lit ".tar.gz") None;
            TarExtractAll [lit "data"]]).
Proof.
  apply (tar_url_extracted sample_response failing_extractall sample_extractall
           (lit "http://host/archive") [lit "data"] None empty_data_world (lit "PK"));
    reflexivity.
Defined.

Lemma download_failure_witness :
  fetch_archive_from_http failing_response sample_extractall sample_extractall
    (lit "http://host/archive.zip") [lit "data"] None empty_data_world
  = (Raise (External 3),
     after empty_data_world (files empty_data_world)
           (Fetching (lit "http://host/archive.zip") [lit "data"])
           [HttpGet (lit "http://host/archive.zip") None]).
Proof.
  refine (proj1 (download_failure failing_response sample_extractall sample_extractall
                   (lit "http://host/archive.zip") [lit "data"] None empty_data_world
                   (lit "PK") (External 3) _ _));
    reflexivity.
Defined.

Lemma failed_extraction_blocks_retry_witness :
  let first := fetch_archive_from_http sample_response partial_extractall
                 failing_extractall (lit "http://host/archive" ++ lit ".zip")
                 [lit "data"] None empty_data_world in
  first.1 = Raise (External 7)
  /\ (fetch_archive_from_http sample_response partial_extractall failing_extractall
        (lit "http://host/archive" ++ lit ".zip") [lit "data"] None first.2).1
     = Ok false.
Proof.
  intros first.
  destruct (failed_extraction_blocks_retry sample_response partial_extractall
              failing_extractall (lit "http://host/archive") [lit "data"] None
              empty_data_world (lit "PK")
              (Dir [(lit "data", Dir [(lit "a.txt", File (lit "PK"))])])
              (External 7) (lit "a.txt", File (lit "PK")) []
              eq_refl eq_refl eq_refl eq_refl) as [H1 H2].
  split; [exact H1 |]. fold first in H2. rewrite H2. reflexivity.
Defined.

Lemma missing_output_dir_created_witness :
  resolve (Dir [(lit "keep.txt", File (lit "kept"));
                (lit "new", Dir [(lit "data", Dir [])])])
          [lit "new"; lit "data"]
  = Some (Dir [])
  /\ fetch_archive_from_http sample_response sample_extractall failing_extractall
       (lit "http://host/archive.7z") [lit "new"; lit "data"] None no_data_world
     = fetch_archive_from_http sample_response sample_extractall failing_extractall
         (lit "http://host/archive.7z") [lit "new"; lit "data"] None
         (set_files (Dir [(lit "keep.txt", File (lit "kept"));
                          (lit "new", Dir [(lit "data", Dir [])])])
                    no_data_world).
Proof.
  apply (missing_output_dir_created sample_response sample_extractall failing_extractall
           (lit "http://host/archive.7z") [lit "new"; lit "data"] None no_data_world);
    reflexivity.
Defined.

Lemma output_dir_under_file_witness :
  fetch_archive_from_http sample_response sample_extractall failing_extractall
    (lit "http://host/archive.zip") ([lit "data"] ++ [lit "sub"]) None file_data_world
  = (Raise (NotADirectoryError ([lit "data"] ++ [lit "sub"])), file_data_world).
Proof.
  apply (output_dir_under_file sample_response sample_extractall failing_extractall
           (lit "http://host/archive.zip") [lit "data"] [lit "sub"] None file_data_world
           (lit "not a directory")).
  - reflexivity.
  - discriminate.
Defined.

Lemma output_dir_is_file_witness :
  (fetch_archive_from_http sample_response sample_extractall failing_extractall
     (lit "http://host/archive.7z") [lit "data"] None file_data_world).1 <> Ok false
  /\ exists rest,
       calls (fetch_archive_from_http sample_response sample_extractall failing_extractall
                (lit "http://host/archive.7z") [lit "data"] None file_data_world).2
       = calls file_data_world ++ HttpGet (lit "http://host/archive.7z") None :: rest.
Proof.
  apply (output_dir_is_file sample_response sample_extractall failing_extractall
           (lit "http://host/archive.7z") [lit "data"] None file_data_world
           (lit "not a directory")).
  reflexivity.
Defined.

Lemma existing_files_kept_witness :
  resolve (files (fetch_archive_from_http sample_response sample_extractall
                    failing_extractall (lit "http://host/archive.7z")
                    [lit "new"; lit "data"] None no_data_world).2)
          [lit "keep.txt"]
  = Some (File (lit "kept")).
Proof.
  apply (existing_files_kept sample_response sample_extractall failing_extractall
           (lit "http://host/archive.7z") [lit "new"; lit "data"] None no_data_world
           [lit "keep.txt"] (lit "kept")).
  - reflexivity.
  - discriminate.
  - discriminate.
  - reflexivity.
Defined.
